(** * growl: document model and rendering pipeline of growl.py

    A shallow embedding of [growl.py] (Python 2, POSIX paths).  Python
    objects that the program mutates ([AttrDict] contexts) live in an
    explicit store; the functions of the third-party libraries the program
    calls ([yaml.load], [jinja2.Template(..).render], the registered content
    transformers) and the file system are variables of the section that
    holds the program. *)

From Stdlib Require Import ZArith Ascii String.
From stdpp Require Import base option list strings countable gmap fin_maps.

Open Scope Z_scope.

#[local] Set Warnings "-register-all".

(* ===================================================================== *)
(** * Python results                                                      *)
(* ===================================================================== *)

(** The exceptions that the modelled code and its libraries raise. *)
Inductive exn : Type :=
| ValueError
| TypeError
| OverflowError
| KeyError (name : string)
| IOError
| YAMLError
| TemplateError
| TransformError.

(** What running a piece of code gives: a value, an exception, or nothing
    because the iteration budget of a loop ran out ([Diverge] after every
    budget means that the loop never ends). *)
Inductive outcome (A : Type) : Type :=
| Ret (a : A)
| Raise (e : exn)
| Diverge.
Arguments Ret {A} a.
Arguments Raise {A} e.
Arguments Diverge {A}.

Definition obind {A B} (f : A → outcome B) (m : outcome A) : outcome B :=
  match m with
  | Ret a => f a
  | Raise e => Raise e
  | Diverge => Diverge
  end.

#[global] Instance outcome_ret : MRet outcome := @Ret.
#[global] Instance outcome_bind : MBind outcome := @obind.

(* ===================================================================== *)
(** * Python [str] methods used by the program                            *)
(* ===================================================================== *)

Module Str.

(** C-locale [isspace]: what [str.strip()], [int()] and the pattern [\s]
    (8-bit pattern, no LOCALE/UNICODE flag) take as white space. *)
Definition isspace (c : ascii) : bool :=
  match c with
  | "009" | "010" | "011" | "012" | "013" | " " => true
  | _ => false
  end%char.

Definition isdigit (c : ascii) : bool :=
  match c with
  | "0" | "1" | "2" | "3" | "4" | "5" | "6" | "7" | "8" | "9" => true
  | _ => false
  end%char.

Definition digit_val (c : ascii) : Z := Z.of_nat (nat_of_ascii c) - 48.

Definition eqc (a b : ascii) : bool := Ascii.eqb a b.

Definition nonempty (s : string) : bool :=
  match s with EmptyString => false | String _ _ => true end.

Fixpoint forallb (p : ascii → bool) (s : string) : bool :=
  match s with
  | EmptyString => true
  | String c s' => p c && forallb p s'
  end.

Fixpoint existsb (p : ascii → bool) (s : string) : bool :=
  match s with
  | EmptyString => false
  | String c s' => p c || existsb p s'
  end.

(** [s.startswith(p)] *)
Fixpoint startswith (p s : string) : bool :=
  match p, s with
  | EmptyString, _ => true
  | String a p', String b s' => eqc a b && startswith p' s'
  | String _ _, EmptyString => false
  end.

(** [s.endswith("/")] and the like, for a one-character suffix. *)
Fixpoint endswithc (c : ascii) (s : string) : bool :=
  match s with
  | EmptyString => false
  | String a EmptyString => eqc a c
  | String _ s' => endswithc c s'
  end.

(** [s.lstrip()], [s.rstrip()], [s.strip()] with no argument. *)
Fixpoint lstrip (s : string) : string :=
  match s with
  | EmptyString => EmptyString
  | String c s' => if isspace c then lstrip s' else s
  end.

Fixpoint rstrip (s : string) : string :=
  match s with
  | EmptyString => EmptyString
  | String c s' =>
      match rstrip s' with
      | EmptyString => if isspace c then EmptyString else String c EmptyString
      | r => String c r
      end
  end.

Definition strip (s : string) : string := rstrip (lstrip s).

(** [s.split(sep)] for a one-character separator: every occurrence
    splits, and the empty string gives one empty field. *)
Fixpoint split (sep : ascii) (s : string) : list string :=
  match s with
  | EmptyString => [EmptyString]
  | String c s' =>
      if eqc c sep then EmptyString :: split sep s'
      else match split sep s' with
           | w :: ws => String c w :: ws
           | [] => [String c EmptyString]
           end
  end.

(** [s.split(sep, maxsplit)]: at most [maxsplit] splits, leftmost first;
    the last field keeps the remaining separators. *)
Fixpoint split_max (sep : ascii) (maxsplit : nat) (s : string) : list string :=
  match s with
  | EmptyString => [EmptyString]
  | String c s' =>
      match maxsplit with
      | O => [s]
      | S n =>
          if eqc c sep then EmptyString :: split_max sep n s'
          else match split_max sep maxsplit s' with
               | w :: ws => String c w :: ws
               | [] => [String c EmptyString]
               end
      end
  end.

(** [sep.join(items)] *)
Fixpoint join (sep : string) (items : list string) : string :=
  match items with
  | [] => EmptyString
  | [x] => x
  | x :: rest => x +:+ sep +:+ join sep rest
  end.

(** Index just past the last occurrence of [c] in [s], 0 when there is
    none: [s.rfind(c) + 1]. *)
Fixpoint after_last (c : ascii) (s : string) : nat :=
  match s with
  | EmptyString => O
  | String a s' =>
      match after_last c s' with
      | O => if eqc a c then 1%nat else O
      | S n => S (S n)
      end
  end.

Fixpoint drop (n : nat) (s : string) : string :=
  match n, s with
  | O, _ => s
  | S n', String _ s' => drop n' s'
  | S _, EmptyString => EmptyString
  end.

Fixpoint take (n : nat) (s : string) : string :=
  match n, s with
  | O, _ => EmptyString
  | S n', String c s' => String c (take n' s')
  | S _, EmptyString => EmptyString
  end.

(** The value of a string of decimal digits. *)
Fixpoint digits_val (acc : Z) (s : string) : Z :=
  match s with
  | EmptyString => acc
  | String c s' => digits_val (10 * acc + digit_val c) s'
  end.

(** [int(s)] for a [str] argument (Python 2.7, base 10): white space around
    the literal is ignored, one sign may precede the digits, at least one
    digit is required and nothing else is accepted. *)
Definition py_int (s : string) : outcome Z :=
  let t := strip s in
  let '(neg, ds) :=
    match t with
    | String "-" r => (true, r)
    | String "+" r => (false, r)
    | _ => (false, t)
    end in
  if nonempty ds && forallb isdigit ds
  then Ret (if neg then - digits_val 0 ds else digits_val 0 ds)
  else Raise ValueError.

(** What [int()] accepts. *)
Definition numeric (s : string) : bool :=
  match py_int s with
  | Ret _ => true
  | _ => false
  end.

(** [s.count(c)] *)
Fixpoint count (c : ascii) (s : string) : nat :=
  match s with
  | EmptyString => O
  | String a s' => if eqc a c then S (count c s') else count c s'
  end.

(** [c not in s] *)
Definition lacks (c : ascii) (s : string) : bool :=
  negb (existsb (λ a, eqc a c) s).

End Str.

(* ===================================================================== *)
(** * Python values, dictionaries and the object store                    *)
(* ===================================================================== *)

(** Dictionary keys: the hashable scalars.  [True] and [1] are the same
    key in Python, so a boolean key is stored as its integer. *)
Inductive key : Type :=
| KNone
| KInt (z : Z)
| KStr (s : string)
| KDate (y m d : Z).

#[global] Instance key_eq_dec : EqDecision key.
Proof. solve_decision. Defined.

#[global] Instance key_countable : Countable key.
Proof.
  refine (inj_countable'
    (λ k, match k with
          | KNone => inl ()
          | KInt z => inr (inl z)
          | KStr s => inr (inr (inl s))
          | KDate y m d => inr (inr (inr (y, m, d)))
          end)
    (λ x, match x with
          | inl () => KNone
          | inr (inl z) => KInt z
          | inr (inr (inl s)) => KStr s
          | inr (inr (inr (y, m, d))) => KDate y m d
          end) _).
  by intros [].
Defined.

(** Addresses of [AttrDict] objects. *)
Abbreviation loc := positive.

(** The values a context binds: what [yaml.load] builds, the
    [datetime.datetime] of a post, and references to [AttrDict] objects
    (the shared [site] mapping).  Floats are not modelled. *)
Inductive value : Type :=
| VNone
| VBool (b : bool)
| VInt (z : Z)
| VStr (s : string)
| VDate (y m d : Z)
| VList (items : list value)
| VMap (entries : list (key * value))
| VRef (l : loc).

Abbreviation dict := (gmap key value).
Abbreviation heap := (gmap positive (gmap key value)).

(** [hash(v)]: lists and dictionaries ([AttrDict] included) are unhashable. *)
Definition key_of (v : value) : option key :=
  match v with
  | VNone => Some KNone
  | VBool b => Some (KInt (if b then 1 else 0))
  | VInt z => Some (KInt z)
  | VStr s => Some (KStr s)
  | VDate y m d => Some (KDate y m d)
  | VList _ | VMap _ | VRef _ => None
  end.

Definition value_of_key (k : key) : value :=
  match k with
  | KNone => VNone
  | KInt z => VInt z
  | KStr s => VStr s
  | KDate y m d => VDate y m d
  end.

(** Code that reads and writes the store. *)
Definition M (A : Type) : Type := gmap positive (gmap key value) → outcome (A * gmap positive (gmap key value)).

Definition mret {A} (a : A) : M A := λ h, Ret (a, h).
Definition mbnd {A B} (f : A → M B) (m : M A) : M B :=
  λ h, match m h with
       | Ret (a, h') => f a h'
       | Raise e => Raise e
       | Diverge => Diverge
       end.
Definition lift {A} (o : outcome A) : M A :=
  λ h, match o with
       | Ret a => Ret (a, h)
       | Raise e => Raise e
       | Diverge => Diverge
       end.
Definition raise {A} (e : exn) : M A := λ _, Raise e.

#[global] Instance M_ret : MRet M := @mret.
#[global] Instance M_bind : MBind M := @mbnd.

(** ** [dict] methods on an object of the store *)

Definition deref (self : loc) : M dict :=
  λ h, match h !! self with
       | Some d => Ret (d, h)
       | None => Raise (KeyError "<dangling reference>")
       end.

Definition assign (self : loc) (d : dict) : M unit :=
  λ h, Ret (tt, <[self := d]> h).

(** A new object, at an address that no object of the store has. *)
Definition alloc (d : dict) : M loc :=
  λ h, let l := fresh (dom h) in Ret (l, <[l := d]> h).

(** [self.get(k, default)] *)
Definition dict_get (self : loc) (k : key) (dflt : value) : M value :=
  d ← deref self; mret (default dflt (d !! k)).

(** [k in self] *)
Definition dict_contains (self : loc) (k : key) : M bool :=
  d ← deref self; mret (bool_decide (is_Some (d !! k))).

(** [self[k] = v] *)
Definition dict_setitem (self : loc) (k : key) (v : value) : M unit :=
  d ← deref self; assign self (<[k := v]> d).

(** [del self[k]] *)
Definition dict_delitem (self : loc) (k : key) : M unit :=
  d ← deref self;
  match d !! k with
  | Some _ => assign self (delete k d)
  | None => raise (KeyError "<deleted key>")
  end.

(** [if k in self: del self[k]] *)
Definition del_if_present (self : loc) (k : key) : M unit :=
  mbnd (λ has : bool, if has then dict_delitem self k else mret tt)
       (dict_contains self k).

(** One element of the sequence form of [dict.update]: it must itself be a
    sequence of length two.  (The two keys of a dictionary given as an
    element come in the order the model stores them.) *)
Definition chars (s : string) : list value :=
  (λ c, VStr (String c EmptyString)) <$> list_ascii_of_string s.

Definition iter_value (v : value) : M (list value) :=
  match v with
  | VList items => mret items
  | VStr s => mret (chars s)
  | VMap entries => mret ((λ e, value_of_key e.1) <$> entries)
  | VRef l => d ← deref l; mret ((λ e, value_of_key e.1) <$> map_to_list d)
  | VNone | VBool _ | VInt _ | VDate _ _ _ => raise TypeError
  end.

Definition pair_of_item (item : value) : M (key * value) :=
  xs ← iter_value item;
  match xs with
  | [a; b] => match key_of a with
              | Some k => mret (k, b)
              | None => raise TypeError
              end
  | _ => raise ValueError
  end.

Fixpoint pairs_of_items (items : list value) : M (list (key * value)) :=
  match items with
  | [] => mret []
  | item :: rest =>
      p ← pair_of_item item; ps ← pairs_of_items rest; mret (p :: ps)
  end.

(** Entries are stored left to right, so a later entry wins. *)
Definition store_entries (entries : list (key * value)) (d : dict) : dict :=
  foldl (λ acc e, <[e.1 := e.2]> acc) d entries.

(** [self.update(other)]: [other] is a mapping, or a sequence of pairs. *)
Definition dict_update (self : loc) (other : value) : M unit :=
  match other with
  | VMap entries =>
      d ← deref self; assign self (store_entries entries d)
  | VRef l =>
      o ← deref l; d ← deref self; assign self (o ∪ d)
  | VList _ | VStr _ =>
      items ← iter_value other;
      entries ← pairs_of_items items;
      d ← deref self; assign self (store_entries entries d)
  | VNone | VBool _ | VInt _ | VDate _ _ _ => raise TypeError
  end.

(* ===================================================================== *)
(** * class AttrDict(dict)                                                *)
(* ===================================================================== *)

Module AttrDict.

(** [__getattr__]: [self[name]]; a missing key is a [KeyError].  (The
    names the program reads this way are no attributes of [dict].) *)
Definition getattr (self : loc) (name : string) : M value :=
  d ← deref self;
  match d !! KStr name with
  | Some v => mret v
  | None => raise (KeyError name)
  end.

(** [__setattr__]: [self[name] = value] *)
Definition setattr (self : loc) (name : string) (v : value) : M unit :=
  dict_setitem self (KStr name) v.

(** [copy]: a new [AttrDict] object with the same bindings. *)
Definition copy (self : loc) : M loc :=
  d ← deref self; alloc d.

End AttrDict.

(* ===================================================================== *)
(** * os.path (posixpath)                                                 *)
(* ===================================================================== *)

Module OsPath.

(** [os.path.basename(p)]: [p[p.rfind('/') + 1:]] *)
Definition basename (p : string) : string :=
  Str.drop (Str.after_last "/" p) p.

(** [os.path.splitext(p)]: the extension starts at the last dot of the
    last path component, unless only dots precede it there. *)
Definition splitext (p : string) : string * string :=
  let sep := Str.after_last "/" p in
  let dot := Str.after_last "." p in
  if bool_decide (sep < dot)%nat then
    let stem := Str.take (dot - 1 - sep) (Str.drop sep p) in
    if Str.existsb (λ c, negb (Str.eqc c ".")) stem
    then (Str.take (dot - 1) p, Str.drop (dot - 1) p)
    else (p, EmptyString)
  else (p, EmptyString).

(** One step of [os.path.join]: an absolute component discards what
    came before it; otherwise one slash separates the two. *)
Definition join2 (path b : string) : string :=
  if Str.startswith "/" b then b
  else if negb (Str.nonempty path) || Str.endswithc "/" path then path +:+ b
  else path +:+ "/" +:+ b.

(** [os.path.join(a, *p)] *)
Definition join (a : string) (p : list string) : string := foldl join2 a p.

End OsPath.

(* ===================================================================== *)
(** * datetime.datetime(year, month, day)                                 *)
(* ===================================================================== *)

Module Datetime.

Definition is_leap (y : Z) : bool :=
  (y mod 4 =? 0) && (negb (y mod 100 =? 0) || (y mod 400 =? 0)).

Definition days_in_month (y m : Z) : Z :=
  if (m =? 2) then (if is_leap y then 29 else 28)
  else if (m =? 4) || (m =? 6) || (m =? 9) || (m =? 11) then 30
  else 31.

Definition valid_date (y m d : Z) : bool :=
  (1 <=? y) && (y <=? 9999) && (1 <=? m) && (m <=? 12)
  && (1 <=? d) && (d <=? days_in_month y m).

(** The arguments are converted to C [int]s first. *)
Definition fits_int (z : Z) : bool := (- 2147483648 <=? z) && (z <=? 2147483647).

Definition datetime (y m d : Z) : outcome value :=
  if negb (fits_int y && fits_int m && fits_int d) then Raise OverflowError
  else if valid_date y m d then Ret (VDate y m d)
  else Raise ValueError.

End Datetime.

(* ===================================================================== *)
(** * re: a backtracking matcher for the constructs of [RE_YAML]          *)
(* ===================================================================== *)

Module Re.

(** Character classes: [.] under [re.S] and [\s]. *)
Inductive cclass : Type := Any | Space.

Definition cmatch (cl : cclass) (c : ascii) : bool :=
  match cl with
  | Any => true
  | Space => Str.isspace c
  end.

Inductive regex : Type :=
| Eps
| Bol                                   (* ^   under re.M *)
| Eol                                   (* $   under re.M *)
| Lit (s : string)
| Star (cl : cclass)                    (* cl*   greedy *)
| StarLazy (cl : cclass)                (* cl*?  non-greedy *)
| Named (name : string) (r : regex)     (* (?P<name>r) *)
| Opt (r : regex)                       (* (r)?  greedy *)
| Cat (r1 r2 : regex).

(** Where the matcher stands: the character before the position (none at
    the start of the subject), the rest of the subject, and the groups
    that have matched so far. *)
Record mstate : Type := MState {
  prev : option ascii;
  rest : string;
  groups : list (string * string)
}.

Definition at_bol (st : mstate) : bool :=
  match prev st with
  | None => true
  | Some c => Str.eqc c "010"
  end.

Definition at_eol (st : mstate) : bool :=
  match rest st with
  | EmptyString => true
  | String c _ => Str.eqc c "010"
  end.

Fixpoint eat (lit : string) (p : option ascii) (s : string) : option (option ascii * string) :=
  match lit with
  | EmptyString => Some (p, s)
  | String a lit' =>
      match s with
      | String b s' => if Str.eqc a b then eat lit' (Some b) s' else None
      | EmptyString => None
      end
  end.

(** [cl*]: as many characters as possible first, then fewer. *)
Fixpoint star_greedy (cl : cclass) (k : mstate → option mstate)
    (g : list (string * string)) (p : option ascii) (s : string) : option mstate :=
  match s with
  | String c s' =>
      if cmatch cl c then
        match star_greedy cl k g (Some c) s' with
        | Some r => Some r
        | None => k (MState p s g)
        end
      else k (MState p s g)
  | EmptyString => k (MState p s g)
  end.

(** [cl*?]: as few characters as possible first, then more. *)
Fixpoint star_lazy (cl : cclass) (k : mstate → option mstate)
    (g : list (string * string)) (p : option ascii) (s : string) : option mstate :=
  match k (MState p s g) with
  | Some r => Some r
  | None =>
      match s with
      | String c s' => if cmatch cl c then star_lazy cl k g (Some c) s' else None
      | EmptyString => None
      end
  end.

(** The text a group matched, between its entry and its exit. *)
Definition capture (name : string) (st st' : mstate) : mstate :=
  let n := (String.length (rest st) - String.length (rest st'))%nat in
  MState (prev st') (rest st') ((name, Str.take n (rest st)) :: groups st').

(** [run r k st]: the first way, in the order a backtracking engine tries
    them, to match [r] from [st] so that the continuation [k] succeeds. *)
Fixpoint run (r : regex) (k : mstate → option mstate) (st : mstate) : option mstate :=
  match r with
  | Eps => k st
  | Bol => if at_bol st then k st else None
  | Eol => if at_eol st then k st else None
  | Lit s =>
      match eat s (prev st) (rest st) with
      | Some (p, s') => k (MState p s' (groups st))
      | None => None
      end
  | Star cl => star_greedy cl k (groups st) (prev st) (rest st)
  | StarLazy cl => star_lazy cl k (groups st) (prev st) (rest st)
  | Named name r' => run r' (λ st', k (capture name st st')) st
  | Opt r' =>
      match run r' k st with
      | Some res => Some res
      | None => k st
      end
  | Cat r1 r2 => run r1 (run r2 k) st
  end.

Definition seq (rs : list regex) : regex := foldr Cat Eps rs.

(** [pattern.match(subject)]: anchored at the start, not at the end. *)
Definition pymatch (r : regex) (subject : string) : option mstate :=
  run r Some (MState None subject []).

(** [mo.groupdict().get(name)]: [None] for a group that took no part. *)
Fixpoint lookup_group (name : string) (g : list (string * string)) : option string :=
  match g with
  | [] => None
  | (n, s) :: g' => if String.eqb n name then Some s else lookup_group name g'
  end.

Definition group (name : string) (mo : mstate) : option string :=
  lookup_group name (groups mo).

End Re.

(* ===================================================================== *)
(** * The program                                                         *)
(* ===================================================================== *)

(** [RE_YAML], compiled with [re.M | re.S]; with blanks added between its
    parts the pattern reads
    [( ^ --- \s* $ (?P<yaml> .*? ) ^ --- \s* $ )? (?P<content> .* )]. *)
Definition RE_YAML : Re.regex :=
  Re.Cat
    (Re.Opt (Re.seq [Re.Bol; Re.Lit "---"; Re.Star Re.Space; Re.Eol;
                     Re.Named "yaml" (Re.StarLazy Re.Any);
                     Re.Bol; Re.Lit "---"; Re.Star Re.Space; Re.Eol]))
    (Re.Named "content" (Re.Star Re.Any)).

(** A [Layout] instance: its [layouts] mapping is always empty, so only the
    other attributes are kept. *)
Record Layout : Type := mkLayout {
  l_filename : string;
  l_context : loc;
  l_content : string;
  l_name : string
}.

(** A [Template] instance ([Config]'s directories included). *)
Record Template : Type := mkTemplate {
  BASE_DIR : string;
  DEPLOY_DIR : string;
  filename : string;
  layouts : gmap string Layout;
  context : loc;
  content : string
}.

Definition set_content (self : Template) (c : string) : Template :=
  mkTemplate (BASE_DIR self) (DEPLOY_DIR self) (filename self)
             (layouts self) (context self) c.

(** A [Post] instance. *)
Record Post : Type := mkPost {
  tpl : Template;
  year : string;
  month : string;
  day : string;
  slug : string
}.

(** A value used where the code needs a [str]. *)
Definition as_str (v : value) : outcome string :=
  match v with
  | VStr s => Ret s
  | _ => Raise TypeError
  end.

(** [sep.join(items)] on values: every item must be a string. *)
Fixpoint strs_of (items : list value) : outcome (list string) :=
  match items with
  | [] => Ret []
  | v :: rest => s ← as_str v; ss ← strs_of rest; Ret (s :: ss)
  end.

Definition join_values (sep : string) (items : list value) : outcome string :=
  ss ← strs_of items; Ret (Str.join sep ss).

(** [layouts.get(v)]: the layout names are strings; an unhashable [v]
    cannot be looked up at all. *)
Definition layouts_get (ls : gmap string Layout) (v : value) : outcome (option Layout) :=
  match key_of v with
  | None => Raise TypeError
  | Some (KStr s) => Ret (ls !! s)
  | Some _ => Ret None
  end.

(** [[c.strip() for c in cats.split(',') if c]] *)
Definition normalize_categories (cats : string) : list string :=
  Str.strip <$> filter (λ c, Is_true (Str.nonempty c)) (Str.split "," cats).

(** The stem of a file name: [os.path.splitext(os.path.basename(f))[0]] *)
Definition stem_of (fname : string) : string :=
  (OsPath.splitext (OsPath.basename fname)).1.

(** A value [','.join] accepts, or no value at all. *)
Definition str_or_absent (o : option value) : Prop :=
  match o with
  | Some (VStr _) | None => True
  | Some _ => False
  end.

(** The operations on a copy that the isolation property ranges over:
    [copy[k] = v], [del copy[k]], [copy.update(other)]. *)
Inductive mutation : Type :=
| SetItem (k : key) (v : value)
| DelItem (k : key)
| Update (other : value).

Definition mutate (self : loc) (m : mutation) : M unit :=
  match m with
  | SetItem k v => dict_setitem self k v
  | DelItem k => dict_delitem self k
  | Update other => dict_update self other
  end.

Fixpoint mutate_all (self : loc) (ms : list mutation) : M unit :=
  match ms with
  | [] => mret tt
  | m :: rest => _ ← mutate self m; mutate_all self rest
  end.

(* ===================================================================== *)
(** * Collaborators and sites for the examples                            *)
(* ===================================================================== *)

(** The examples run the program against a file system, a decoder and a
    template engine that are given by finite tables: a file system holding
    the listed files, a decoder that knows the listed metadata texts (with
    the values [yaml.load] gives for them), an engine that knows the listed
    template sources (with the text they render to). *)
Module Ex.

Definition nl : string := String "010" EmptyString.

Fixpoint assoc {A} (tbl : list (string * A)) (k : string) : option A :=
  match tbl with
  | [] => None
  | (k', a) :: tbl' => if String.eqb k' k then Some a else assoc tbl' k
  end.

Definition files (tbl : list (string * string)) : string → option string :=
  assoc tbl.

Definition decoder (tbl : list (string * value)) (text : string) : outcome value :=
  match assoc tbl text with
  | Some v => Ret v
  | None => Raise YAMLError
  end.

Definition engine (tbl : list (string * string)) (source : string)
    (_ : dict) : outcome string :=
  match assoc tbl source with
  | Some out => Ret out
  | None => Raise TemplateError
  end.

Definition no_transformers : gmap string (string → outcome string) := ∅.

(** A metadata block with the given inner lines, then the body. *)
Definition block (inner body : string) : string :=
  "---" +:+ nl +:+ inner +:+ nl +:+ "---" +:+ nl +:+ body.

(** The files of the example site. *)
Definition site_files : list (string * string) :=
  [ ("site/_layout/default.html", "<{{ content }}>");
    ("site/_layout/a.html", block "layout: b" "A");
    ("site/_layout/b.html", block "layout: a" "B");
    ("site/_posts/2024-03-05-hello.md", block "layout: default" "Hi");
    ("site/_posts/2024-13-05-hello.md", "Hi");
    ("site/_posts/2024-03-06-five.md", block "category: 5" "Hi");
    ("site/_posts/2024-03-07-list.md", block "categories: a, ,b" "Hi");
    ("site/_posts/2024-03-09-listed.md", block "layout: [default]" "Hi");
    ("site/_posts/2024-04-01-loop.md", block "layout: a" "Hi");
    ("site/_posts/2024-01-01-first.md", block "categories: tech, life" "One");
    ("site/_posts/2024-01-02-second.md", block "category: tech" "Two");
    ("site/_posts/2024-01-03-twice.md",
       block ("category: tech" +:+ nl +:+ "categories: tech") "Three");
    ("site/_posts/2024-03-08-plain.md", "No metadata here");
    ("site/_posts/2024-03-10-empty.md",
       "---" +:+ nl +:+ "---" +:+ nl +:+ "body") ].

(** What [yaml.load] gives for the text between the markers of each. *)
Definition site_metadata : list (string * value) :=
  [ (nl +:+ "layout: default" +:+ nl, VMap [(KStr "layout", VStr "default")]);
    (nl +:+ "layout: a" +:+ nl, VMap [(KStr "layout", VStr "a")]);
    (nl +:+ "layout: b" +:+ nl, VMap [(KStr "layout", VStr "b")]);
    (nl +:+ "layout: [default]" +:+ nl,
       VMap [(KStr "layout", VList [VStr "default"])]);
    (nl +:+ "category: 5" +:+ nl, VMap [(KStr "category", VInt 5)]);
    (nl +:+ "categories: a, ,b" +:+ nl, VMap [(KStr "categories", VStr "a, ,b")]);
    (nl +:+ "categories: tech, life" +:+ nl,
       VMap [(KStr "categories", VStr "tech, life")]);
    (nl +:+ "category: tech" +:+ nl, VMap [(KStr "category", VStr "tech")]);
    (nl +:+ "category: tech" +:+ nl +:+ "categories: tech" +:+ nl,
       VMap [(KStr "category", VStr "tech"); (KStr "categories", VStr "tech")]);
    (nl, VNone) ].

(** What the template engine gives for the sources of the site: a
    source without template syntax renders to itself, and the layout
    [default] wraps the content of the one post that uses it. *)
Definition site_templates : list (string * string) :=
  [ ("<{{ content }}>", "<" +:+ nl +:+ "Hi>");
    (nl +:+ "Hi", nl +:+ "Hi");
    (nl +:+ "A", nl +:+ "A");
    (nl +:+ "B", nl +:+ "B");
    ("No metadata here", "No metadata here") ].

Definition fs : string → option string := files site_files.
Definition yaml : string → outcome value := decoder site_metadata.
Definition jinja : string → dict → outcome string := engine site_templates.

Definition post_named (name : string) : string := "site/_posts/" +:+ name.

(** The context a [Site] starts from: [site] bound to an [AttrDict]. *)
Definition site_ctx : loc := 1%positive.
Definition base_ctx : dict := {[ KStr "site" := VRef 2%positive ]}.
Definition site_store : heap :=
  {[ 1%positive := base_ctx; 2%positive := ∅ ]}.

(** The post [2024-03-05-hello.md], loaded with no layout at hand. *)
Definition hello_tpl : Template :=
  mkTemplate "site" "site/_deploy" (post_named "2024-03-05-hello.md") ∅
             3%positive (nl +:+ "Hi").
Definition hello_ctx : dict := <[KStr "layout" := VStr "default"]> base_ctx.
Definition hello_store : heap := <[3%positive := hello_ctx]> site_store.
Definition hello_post : Post := mkPost hello_tpl "2024" "03" "05" "hello".

(** The post [2024-03-08-plain.md]: no metadata block. *)
Definition plain_tpl : Template :=
  mkTemplate "site" "site/_deploy" (post_named "2024-03-08-plain.md") ∅
             3%positive "No metadata here".
Definition plain_store : heap := <[3%positive := base_ctx]> site_store.
Definition plain_post : Post := mkPost plain_tpl "2024" "03" "08" "plain".
Definition plain_ctx : dict :=
  <[KStr "categories" := VList []]>
    (<[KStr "path" := VStr "2024/03/08"]>
      (<[KStr "url" := VStr "2024/03/08/plain"]>
        (<[KStr "date" := VDate 2024 3 8]> base_ctx))).
Definition plain_final : heap := <[3%positive := plain_ctx]> site_store.

(** The post [2024-03-09-listed.md]: its [layout] is a list. *)
Definition listed_tpl : Template :=
  mkTemplate "site" "site/_deploy" (post_named "2024-03-09-listed.md") ∅
             3%positive (nl +:+ "Hi").
Definition listed_ctx : dict :=
  <[KStr "layout" := VList [VStr "default"]]> base_ctx.
Definition listed_store : heap := <[3%positive := listed_ctx]> site_store.

(** The layouts [a] and [b], each the declared parent of the other. *)
Definition layout_a : Layout :=
  mkLayout "site/_layout/a.html" 3%positive (nl +:+ "A") "a".
Definition layout_b : Layout :=
  mkLayout "site/_layout/b.html" 4%positive (nl +:+ "B") "b".
Definition ctx_a : dict := <[KStr "layout" := VStr "b"]> base_ctx.
Definition ctx_b : dict := <[KStr "layout" := VStr "a"]> base_ctx.
Definition store_a : heap := <[3%positive := ctx_a]> site_store.
Definition store_ab : heap := <[4%positive := ctx_b]> store_a.
Definition cycle : gmap string Layout :=
  {[ "a" := layout_a; "b" := layout_b ]}.

(** The post [2024-04-01-loop.md], whose layout is [a]. *)
Definition loop_tpl : Template :=
  mkTemplate "site" "site/_deploy" (post_named "2024-04-01-loop.md") cycle
             5%positive (nl +:+ "Hi").
Definition loop_ctx : dict := <[KStr "layout" := VStr "a"]> base_ctx.
Definition loop_store : heap := <[5%positive := loop_ctx]> store_ab.

(** The layout [default], and the post [2024-03-05-hello.md] loaded with
    it at hand. *)
Definition layout_default : Layout :=
  mkLayout "site/_layout/default.html" 3%positive "<{{ content }}>" "default".
Definition store_default : heap := <[3%positive := base_ctx]> site_store.
Definition with_default : gmap string Layout :=
  {[ "default" := layout_default ]}.
Definition hello2_tpl : Template :=
  mkTemplate "site" "site/_deploy" (post_named "2024-03-05-hello.md")
             with_default 4%positive (nl +:+ "Hi").
Definition hello2_store : heap := <[4%positive := hello_ctx]> store_default.

(** What [Post.__init__] leaves in the context of a post. *)
Definition post_ctx (d : dict) (date : value) (path url : string)
    (cats : list string) : dict :=
  <[KStr "categories" := VList (VStr <$> cats)]>
    (<[KStr "path" := VStr path]>
      (<[KStr "url" := VStr url]> (<[KStr "date" := date]> d))).

(** The post [2024-03-07-list.md]. *)
Definition list_tpl : Template :=
  mkTemplate "site" "site/_deploy" (post_named "2024-03-07-list.md") ∅
             3%positive (nl +:+ "Hi").
Definition list_post : Post := mkPost list_tpl "2024" "03" "07" "list".
Definition list_ctx : dict :=
  post_ctx base_ctx (VDate 2024 3 7) "2024/03/07" "2024/03/07/list"
           ["a"; ""; "b"].
Definition list_final : heap := <[3%positive := list_ctx]> site_store.

(** The posts with categories: [first] and [second] loaded one after the
    other, [twice] loaded alone. *)
Definition first_tpl : Template :=
  mkTemplate "site" "site/_deploy" (post_named "2024-01-01-first.md") ∅
             3%positive (nl +:+ "One").
Definition second_tpl : Template :=
  mkTemplate "site" "site/_deploy" (post_named "2024-01-02-second.md") ∅
             4%positive (nl +:+ "Two").
Definition twice_tpl : Template :=
  mkTemplate "site" "site/_deploy" (post_named "2024-01-03-twice.md") ∅
             3%positive (nl +:+ "Three").
Definition first_post : Post := mkPost first_tpl "2024" "01" "01" "first".
Definition second_post : Post := mkPost second_tpl "2024" "01" "02" "second".
Definition twice_post : Post := mkPost twice_tpl "2024" "01" "03" "twice".
Definition first_ctx : dict :=
  post_ctx base_ctx (VDate 2024 1 1) "2024/01/01" "2024/01/01/first"
           ["tech"; "life"].
Definition second_ctx : dict :=
  post_ctx base_ctx (VDate 2024 1 2) "2024/01/02" "2024/01/02/second" ["tech"].
Definition twice_ctx : dict :=
  post_ctx base_ctx (VDate 2024 1 3) "2024/01/03" "2024/01/03/twice"
           ["tech"; "tech"].
Definition two_store : heap :=
  <[4%positive := second_ctx]> (<[3%positive := first_ctx]> site_store).
Definition twice_store : heap := <[3%positive := twice_ctx]> site_store.
Definition listing : list string :=
  ["2024-01-01-first.md"; "2024-01-02-second.md"].


End Ex.

Section Growl.

(** The file system, as [file(name, 'r').read()] sees it. *)
Variable fs : string → option string.
(** [yaml.load] *)
Variable yaml_load : string → outcome value.
(** [jinja2.Template(source).render(ctx)] *)
Variable jinja_render : string → dict → outcome string.
(** [Config.transformers], as the hooks have filled it. *)
Variable transformers : gmap string (string → outcome string).

Definition read_file (name : string) : outcome string :=
  match fs name with
  | Some text => Ret text
  | None => Raise IOError
  end.

(** ** class Template *)

Definition Template_read_yaml (self : Template) : M Template :=
  text ← lift (read_file (filename self));
  match Re.pymatch RE_YAML text with
  | Some mo =>
      match Re.group "yaml" mo with
      | Some y =>
          if Str.nonempty y then
            meta ← lift (yaml_load y);
            _ ← dict_update (context self) meta;
            mret (set_content self (default EmptyString (Re.group "content" mo)))
          else mret (set_content self text)
      | None => mret (set_content self text)
      end
  | None => mret (set_content self text)
  end.

Definition Template_init (base deploy fname : string)
    (lays : gmap string Layout) (ctx : loc) : M Template :=
  own ← AttrDict.copy ctx;
  Template_read_yaml (mkTemplate base deploy fname lays own EmptyString).

Definition Template_transform (self : Template) : outcome string :=
  let ext := Str.drop 1 (OsPath.splitext (filename self)).2 in
  match transformers !! ext with
  | Some t => t (content self)
  | None => Ret (content self)
  end.

(** [Layout.layout]: the parent layout that the layout declares. *)
Definition Layout_layout (l : Layout) : M value :=
  dict_get (l_context l) (KStr "layout") VNone.

Definition Template_render (self : Template) : M string :=
  ctx ← AttrDict.copy (context self);
  body ← lift (Template_transform self);
  d ← deref ctx;
  c ← lift (jinja_render body d);
  _ ← AttrDict.setattr ctx "content" (VStr c);
  name ← AttrDict.getattr ctx "layout";
  lay ← lift (layouts_get (layouts self) name);
  match lay with
  | Some l => d' ← deref ctx; lift (jinja_render (l_content l) d')
  | None => v ← AttrDict.getattr ctx "content"; lift (as_str v)
  end.

(** The [while] loop of [Template.layout], at most [fuel] iterations. *)
Fixpoint layout_loop (fuel : nat) (self : Template) (ctx : loc)
    (lay : option Layout) : M string :=
  match lay with
  | None => v ← AttrDict.getattr ctx "content"; lift (as_str v)
  | Some l =>
      match fuel with
      | O => λ _, Diverge
      | S n =>
          d ← deref ctx;
          c ← lift (jinja_render (l_content l) d);
          _ ← AttrDict.setattr ctx "content" (VStr c);
          parent ← Layout_layout l;
          next ← lift (layouts_get (layouts self) parent);
          layout_loop n self ctx next
      end
  end.

Definition Template_layout (fuel : nat) (self : Template) : M string :=
  ctx ← AttrDict.copy (context self);
  c ← Template_render self;
  _ ← AttrDict.setattr ctx "content" (VStr c);
  name ← AttrDict.getattr ctx "layout";
  lay ← lift (layouts_get (layouts self) name);
  first ← match lay with
          | Some l => parent ← Layout_layout l;
                      lift (layouts_get (layouts self) parent)
          | None => mret None
          end;
  layout_loop fuel self ctx first.


(** ** class Layout *)

Definition Layout_init (base deploy fname : string) (ctx : loc) : M Layout :=
  t ← Template_init base deploy fname ∅ ctx;
  c ← lift (Template_transform t);
  mret (mkLayout fname (context t) c (stem_of fname)).

(** ** class Post *)

Definition Post_date (self : Post) : outcome value :=
  y ← Str.py_int (year self);
  m ← Str.py_int (month self);
  d ← Str.py_int (day self);
  Datetime.datetime y m d.

Definition Post_path (self : Post) : string :=
  OsPath.join (year self) [month self; day self].

Definition Post_url (self : Post) : string :=
  Str.join "/" [Post_path self; slug self].

Definition Post_permalink (self : Post) : M value :=
  dict_get (context (tpl self)) (KStr "permalink") VNone.


(** The part of [Post.__init__] that follows the unpacking of the stem. *)
Definition Post_setup (self : Post) : M Post :=
  let ctx := context (tpl self) in
  date ← lift (Post_date self);
  _ ← AttrDict.setattr ctx "date" date;
  _ ← AttrDict.setattr ctx "url" (VStr (Post_url self));
  _ ← AttrDict.setattr ctx "path" (VStr (Post_path self));
  single ← dict_get ctx (KStr "category") (VStr EmptyString);
  plural ← dict_get ctx (KStr "categories") (VStr EmptyString);
  cats ← lift (join_values "," [single; plural]);
  _ ← del_if_present ctx (KStr "category");
  _ ← del_if_present ctx (KStr "categories");
  _ ← AttrDict.setattr ctx "categories" (VList (VStr <$> normalize_categories cats));
  mret self.

Definition Post_init (base deploy fname : string)
    (lays : gmap string Layout) (ctx : loc) : M Post :=
  t ← Template_init base deploy fname lays ctx;
  match Str.split_max "-" 3 (stem_of fname) with
  | [y; m; d; s] => Post_setup (mkPost t y m d s)
  | _ => raise ValueError
  end.


(** ** class Site *)





(** [Site.read_posts]: one [Post] per listed name that does not start
    with two underscores, in the order of the listing. *)
Fixpoint Site_read_posts (base deploy post_dir : string) (listing : list string)
    (lays : gmap string Layout) (ctx : loc) : M (list Post) :=
  match listing with
  | [] => mret []
  | f :: rest =>
      if Str.startswith "__" f then
        Site_read_posts base deploy post_dir rest lays ctx
      else
        p ← Post_init base deploy (OsPath.join post_dir [f]) lays ctx;
        ps ← Site_read_posts base deploy post_dir rest lays ctx;
        mret (p :: ps)
  end.


(** The context of a post once [Post.__init__] is over, from the merged
    context [d] that [Template.__init__] left. *)
Definition post_context (self : Post) (date : value) (cats : string)
    (d : dict) : dict :=
  <[KStr "categories" := VList (VStr <$> normalize_categories cats)]>
    (delete (KStr "categories")
      (delete (KStr "category")
        (<[KStr "path" := VStr (Post_path self)]>
          (<[KStr "url" := VStr (Post_url self)]>
            (<[KStr "date" := date]> d))))).

(** [','.join((context.get('category', ''), context.get('categories', '')))] *)
Definition joined_categories (d : dict) : outcome string :=
  join_values ","
    [default (VStr EmptyString) (d !! KStr "category");
     default (VStr EmptyString) (d !! KStr "categories")].



(** The layout that follows [l] in the chain walk of [Template.layout]:
    [self.layouts.get(l.layout)], read in the store [h]. *)
Definition next_layout (ls : gmap string Layout) (h : heap) (l : Layout)
    : outcome (option Layout) :=
  match h !! l_context l with
  | Some d => layouts_get ls (default VNone (d !! KStr "layout"))
  | None => Raise (KeyError "<dangling reference>")
  end.

(** The chain of declared parents that starts at [lay] comes to an end:
    at a name the mapping does not have, or at a parent that cannot be
    looked up. *)
Inductive chain_ends (ls : gmap string Layout) (h : heap)
    : option Layout → Prop :=
| chain_none : chain_ends ls h None
| chain_stop l e :
    is_Some (h !! l_context l) →
    next_layout ls h l = Raise e →
    chain_ends ls h (Some l)
| chain_step l next :
    is_Some (h !! l_context l) →
    next_layout ls h l = Ret next →
    chain_ends ls h next →
    chain_ends ls h (Some l).

(** The code came to an end: it returned or raised. *)
Definition terminates {A} (o : outcome A) : Prop :=
  match o with
  | Diverge => False
  | _ => True
  end.





(** A metadata block at the very start of [text], in the words of the
    pattern: a line of three dashes (white space may follow them), the
    inner text [y] from the end of that line up to the start of a line of
    three dashes (white space may follow them again), and the [body] that
    starts at the end of a line. *)
Definition marker_block (text w1 y w2 body : string) : Prop :=
  text = "---" +:+ w1 +:+ y +:+ "---" +:+ w2 +:+ body
  ∧ Str.forallb Str.isspace w1 = true
  ∧ Str.forallb Str.isspace w2 = true
  ∧ Str.startswith Ex.nl y = true
  ∧ Str.endswithc "010" y = true
  ∧ (body = EmptyString ∨ Str.startswith Ex.nl body = true).


(** The two parts of [RE_YAML]: the optional block, and the [content]
    group as the continuation of the match. *)
Definition block_re : Re.regex :=
  Re.seq [Re.Bol; Re.Lit "---"; Re.Star Re.Space; Re.Eol;
          Re.Named "yaml" (Re.StarLazy Re.Any);
          Re.Bol; Re.Lit "---"; Re.Star Re.Space; Re.Eol].

Definition content_k : Re.mstate → option Re.mstate :=
  Re.run (Re.Named "content" (Re.Star Re.Any)) Some.

(** The layouts of a chain walk, in the order the walk meets them: from
[lay] on, each one the declared parent of the one before, up to a name
that the mapping does not have. *)
Inductive chain_is (ls : gmap string Layout) (h : heap)
    : option Layout → list Layout → Prop :=
| chain_is_nil : chain_is ls h None []
| chain_is_cons l next rest :
    is_Some (h !! l_context l) →
    next_layout ls h l = Ret next →
    chain_is ls h next rest →
    chain_is ls h (Some l) (l :: rest).

(** The text [c] wrapped by the layouts of [chain], innermost first: each
layout is rendered against the context [d] of the document with [content]
bound to the text so far. *)
Fixpoint wrap_all (d : dict) (c : string) (chain : list Layout) : outcome string :=
  match chain with
  | [] => Ret c
  | l :: rest =>
      c' ← jinja_render (l_content l) (<[KStr "content" := VStr c]> d);
      wrap_all d c' rest
  end.

(** [Site.read_layouts], the list comprehension: one [Layout] per listed
    name that does not start with two underscores, in the order of the
    listing, each built from the context of the site. *)
Fixpoint read_layout_files (base deploy layout_dir : string)
    (listing : list string) (ctx : loc) : M (list Layout) :=
  match listing with
  | [] => mret []
  | f :: rest =>
      if Str.startswith "__" f then
        read_layout_files base deploy layout_dir rest ctx
      else
        l ← Layout_init base deploy (OsPath.join layout_dir [f]) ctx;
        ls ← read_layout_files base deploy layout_dir rest ctx;
        mret (l :: ls)
  end.

(** [dict((l.name, l) for l in layouts)]: the pairs are entered one after
    the other, a later one replacing an earlier one with the same key. *)
Definition layouts_by_name (ls : list Layout) : gmap string Layout :=
  foldl (λ m l, <[l_name l := l]> m) ∅ ls.

Definition Site_read_layouts (base deploy layout_dir : string)
    (listing : list string) (ctx : loc) : M (gmap string Layout) :=
  ls ← read_layout_files base deploy layout_dir listing ctx;
  mret (layouts_by_name ls).

(** [cmp(a, b)] on integers. *)
Definition cmp_Z (a b : Z) : Z :=
  if a <? b then -1 else if a =? b then 0 else 1.

(** [cmp] of two [datetime]s that were made from a year, a month and a
    day: by the year, then the month, then the day.  A [datetime] does not
    let itself be compared with a value of another type. *)
Definition cmp_dates (a b : value) : outcome Z :=
  match a, b with
  | VDate y m d, VDate y' m' d' =>
      Ret (if negb (y =? y') then cmp_Z y y'
           else if negb (m =? m') then cmp_Z m m'
           else cmp_Z d d')
  | _, _ => Raise TypeError
  end.

(** [Post.__cmp__]: [cmp(self.date, other.date)] *)
Definition Post_cmp (self other : Post) : outcome Z :=
  a ← Post_date self;
  b ← Post_date other;
  cmp_dates a b.

(** A token that [if c] lets through and [strip] empties: not empty, and
    white space only. *)
Definition blank (tok : string) : bool :=
  Str.nonempty tok && Str.forallb Str.isspace tok.

(* ===================================================================== *)
(** * Properties                                                          *)
(* ===================================================================== *)

(** ** Sequencing in [M] *)

Lemma bind_Ret {A B} (m : M A) (f : A → M B) h a h' :
  m h = Ret (a, h') → (m ≫= f) h = f a h'.
Proof. intros E. unfold mbind, M_bind, mbnd. by rewrite E. Qed.

Lemma bind_Raise {A B} (m : M A) (f : A → M B) h e :
  m h = Raise e → (m ≫= f) h = Raise e.
Proof. intros E. unfold mbind, M_bind, mbnd. by rewrite E. Qed.

Lemma bind_Diverge {A B} (m : M A) (f : A → M B) h :
  m h = Diverge → (m ≫= f) h = Diverge.
Proof. intros E. unfold mbind, M_bind, mbnd. by rewrite E. Qed.

Lemma bind_inv {A B} (m : M A) (f : A → M B) h b h2 :
  (m ≫= f) h = Ret (b, h2) →
  ∃ a h1, m h = Ret (a, h1) ∧ f a h1 = Ret (b, h2).
Proof.
  unfold mbind, M_bind, mbnd. destruct (m h) as [[a h1]| |]; [eauto|done..].
Qed.

Lemma lift_Ret {A} (o : outcome A) a h : o = Ret a → lift o h = Ret (a, h).
Proof. by intros ->. Qed.

Lemma lift_Raise {A} (o : outcome A) e (h : heap) :
  o = Raise e → lift o h = Raise e.
Proof. by intros ->. Qed.

Lemma lift_inv {A} (o : outcome A) a h h' :
  lift o h = Ret (a, h') → o = Ret a ∧ h' = h.
Proof. destruct o; simpl; intros; by simplify_eq. Qed.

Lemma mret_inv {A} (a b : A) (h h' : heap) :
  mret a h = Ret (b, h') → b = a ∧ h' = h.
Proof. unfold mret. intros; by simplify_eq. Qed.

Lemma mret_inv_refl {A} (a : A) (h : heap) : mret a h = Ret (a, h).
Proof. reflexivity. Qed.

(** ** The store *)

Lemma deref_Ret (h : heap) l d : h !! l = Some d → deref l h = Ret (d, h).
Proof. unfold deref. by intros ->. Qed.

Lemma deref_inv (h h' : heap) l d :
  deref l h = Ret (d, h') → h !! l = Some d ∧ h' = h.
Proof. unfold deref. destruct (h !! l); intros; by simplify_eq. Qed.

Lemma fresh_unbound (h : heap) : h !! fresh (dom h) = None.
Proof. apply not_elem_of_dom, is_fresh. Qed.

Lemma fresh_ne (h : heap) l d : h !! l = Some d → fresh (dom h) ≠ l.
Proof. intros E Heq. rewrite <- Heq, fresh_unbound in E. done. Qed.

Lemma copy_Ret (h : heap) l d :
  h !! l = Some d →
  AttrDict.copy l h = Ret (fresh (dom h), <[fresh (dom h) := d]> h).
Proof. intros E. unfold AttrDict.copy. by rewrite (bind_Ret _ _ _ _ _ (deref_Ret _ _ _ E)). Qed.

Lemma copy_inv (h h' : heap) l l' :
  AttrDict.copy l h = Ret (l', h') →
  ∃ d, h !! l = Some d ∧ l' = fresh (dom h) ∧ h' = <[l' := d]> h.
Proof.
  unfold AttrDict.copy. intros (d & h1 & [E ->]%deref_inv & A)%bind_inv.
  unfold alloc in A. simplify_eq. eauto.
Qed.

Lemma dict_setitem_Ret (h : heap) l d k v :
  h !! l = Some d → dict_setitem l k v h = Ret (tt, <[l := <[k := v]> d]> h).
Proof. intros E. unfold dict_setitem. by rewrite (bind_Ret _ _ _ _ _ (deref_Ret _ _ _ E)). Qed.

Lemma setattr_Ret (h : heap) l d name v :
  h !! l = Some d →
  AttrDict.setattr l name v h = Ret (tt, <[l := <[KStr name := v]> d]> h).
Proof. apply dict_setitem_Ret. Qed.

Lemma getattr_Ret (h : heap) l d name v :
  h !! l = Some d → d !! KStr name = Some v →
  AttrDict.getattr l name h = Ret (v, h).
Proof.
  intros E Ek. unfold AttrDict.getattr.
  rewrite (bind_Ret _ _ _ _ _ (deref_Ret _ _ _ E)). by rewrite Ek.
Qed.

Lemma getattr_missing (h : heap) l d name :
  h !! l = Some d → d !! KStr name = None →
  AttrDict.getattr l name h = Raise (KeyError name).
Proof.
  intros E Ek. unfold AttrDict.getattr.
  rewrite (bind_Ret _ _ _ _ _ (deref_Ret _ _ _ E)). by rewrite Ek.
Qed.

Lemma dict_get_Ret (h : heap) l d k dflt :
  h !! l = Some d → dict_get l k dflt h = Ret (default dflt (d !! k), h).
Proof. intros E. unfold dict_get. by rewrite (bind_Ret _ _ _ _ _ (deref_Ret _ _ _ E)). Qed.

Lemma del_if_present_Ret (h : heap) l d k :
  h !! l = Some d → del_if_present l k h = Ret (tt, <[l := delete k d]> h).
Proof.
  intros E. unfold del_if_present, mbnd, dict_contains.
  rewrite (bind_Ret _ _ _ _ _ (deref_Ret _ _ _ E)). unfold mret.
  case_bool_decide as Hk.
  - destruct Hk as [v Hk]. unfold dict_delitem.
    rewrite (bind_Ret _ _ _ _ _ (deref_Ret _ _ _ E)). by rewrite Hk.
  - apply eq_None_not_Some in Hk.
    by rewrite (delete_id d k Hk), (insert_id h l d E).
Qed.

(** A mutation of one object leaves every other object as it was. *)
Lemma mutate_frame (h h' : heap) l c m :
  mutate l m h = Ret (tt, h') → c ≠ l → h' !! c = h !! c.
Proof.
  intros Hm Hne.
  assert (∀ (d : dict) (h1 h2 : heap),
    assign l d h1 = Ret (tt, h2) → h2 !! c = h1 !! c) as Hassign.
  { intros d h1 h2 Ha. unfold assign in Ha. simplify_eq. by rewrite lookup_insert_ne. }
  destruct m as [k v|k|other]; simpl in Hm.
  - unfold dict_setitem in Hm.
    apply bind_inv in Hm as (d & h1 & [_ ->]%deref_inv & Ha). eauto.
  - unfold dict_delitem in Hm.
    apply bind_inv in Hm as (d & h1 & [_ ->]%deref_inv & Ha).
    destruct (d !! k); [eauto|done].
  - assert (∀ (v : value) (xs : list value) (h1 h2 : heap),
      iter_value v h1 = Ret (xs, h2) → h2 = h1) as Hiter.
    { intros v xs h1 h2. destruct v; simpl; try done.
      - by intros [_ ->]%mret_inv.
      - by intros [_ ->]%mret_inv.
      - by intros [_ ->]%mret_inv.
      - by intros (d & h3 & [_ ->]%deref_inv & [_ ->]%mret_inv)%bind_inv. }
    assert (∀ (items : list value) (es : list (key * value)) (h1 h2 : heap),
      pairs_of_items items h1 = Ret (es, h2) → h2 = h1) as Hpairs.
    { induction items as [|item items IH]; intros es h1 h2; simpl.
      - by intros [_ ->]%mret_inv.
      - intros (p & h3 & Hp & (ps & h4 & Hps & [_ ->]%mret_inv)%bind_inv)%bind_inv.
        apply IH in Hps as ->.
        unfold pair_of_item in Hp.
        apply bind_inv in Hp as (xs & h5 & ->%Hiter & Hp).
        destruct xs as [|a [|b [|]]]; try done.
        destruct (key_of a); [|done]. by apply mret_inv in Hp as [_ ->]. }
    assert (∀ (v : value) (h1 h2 : heap),
      (items ← iter_value v; entries ← pairs_of_items items;
       d ← deref l; assign l (store_entries entries d)) h1 = Ret (tt, h2) →
      h2 !! c = h1 !! c) as Hseq.
    { intros v h1 h2.
      intros (xs & h3 & ->%Hiter & (es & h4 & ->%Hpairs
        & (d & h5 & [_ ->]%deref_inv & Ha)%bind_inv)%bind_inv)%bind_inv.
      eauto. }
    destruct other as [| | |s| |items|entries|l0]; simpl in Hm; try done.
    + by apply (Hseq (VStr s)) in Hm.
    + by apply (Hseq (VList items)) in Hm.
    + apply bind_inv in Hm as (d & h1 & [_ ->]%deref_inv & Ha). eauto.
    + apply bind_inv in Hm as (o & h1 & [_ ->]%deref_inv
        & (d & h2 & [_ ->]%deref_inv & Ha)%bind_inv). eauto.
Qed.

Lemma mutate_all_frame ms (h h' : heap) l c :
  mutate_all l ms h = Ret (tt, h') → c ≠ l → h' !! c = h !! c.
Proof.
  revert h. induction ms as [|m ms IH]; intros h; simpl.
  - by intros [_ ->]%mret_inv.
  - intros ([] & h1 & Hm & Hrest)%bind_inv Hne.
    rewrite (IH _ Hrest Hne). by eapply mutate_frame.
Qed.

(** ** AttrDict.copy *)

(** C5 -- Context copy isolation.  For every context [c] of the store,
    [c.copy()] is a new object with the bindings of [c], and whatever keys
    are then added, overwritten or removed on the copy (by assignment, by
    [del] or by [update], any number of times), [c] keeps exactly the
    bindings it had: the same keys, bound to the same values. *)
Theorem copy_isolation (h : heap) (c : loc) (d : dict) :
  h !! c = Some d →
  ∃ c' h1,
    AttrDict.copy c h = Ret (c', h1)
    ∧ c' ≠ c
    ∧ h1 !! c' = Some d
    ∧ (∀ k v, ∃ h2, dict_setitem c' k v h1 = Ret (tt, h2)
                    ∧ h2 !! c' = Some (<[k := v]> d) ∧ h2 !! c = Some d)
    ∧ (∀ k, is_Some (d !! k) →
            ∃ h2, dict_delitem c' k h1 = Ret (tt, h2)
                  ∧ h2 !! c' = Some (delete k d) ∧ h2 !! c = Some d)
    ∧ (∀ ms h2, mutate_all c' ms h1 = Ret (tt, h2) → h2 !! c = Some d).
Proof.
  intros Hc. exists (fresh (dom h)), (<[fresh (dom h) := d]> h).
  pose proof (fresh_ne h c d Hc) as Hne.
  assert ((<[fresh (dom h) := d]> h) !! fresh (dom h) = Some d) as Hcopy
    by apply lookup_insert_eq.
  assert ((<[fresh (dom h) := d]> h) !! c = Some d) as Horig
    by by rewrite lookup_insert_ne.
  split; [by apply copy_Ret|]. split; [done|]. split; [done|].
  split; [|split].
  - intros k v. eexists. split; [by apply dict_setitem_Ret|].
    split; [by rewrite lookup_insert_eq|].
    by rewrite lookup_insert_ne.
  - intros k [v Hk]. eexists. split.
    + unfold dict_delitem.
      rewrite (bind_Ret _ _ _ _ _ (deref_Ret _ _ _ Hcopy)). rewrite Hk. reflexivity.
    + split; [by rewrite lookup_insert_eq|]. by rewrite lookup_insert_ne.
  - intros ms h2 Hms. rewrite <- Horig. eapply mutate_all_frame; [done|].
    by intros ->.
Qed.

(** ** Post.__init__ *)

Lemma Post_setup_eq (self : Post) (h : heap) (d : dict) :
  h !! context (tpl self) = Some d →
  Post_setup self h =
    match Post_date self with
    | Ret date =>
        match joined_categories d with
        | Ret cats =>
            Ret (self, <[context (tpl self) := post_context self date cats d]> h)
        | Raise e => Raise e
        | Diverge => Diverge
        end
    | Raise e => Raise e
    | Diverge => Diverge
    end.
Proof.
  intros Hd. unfold Post_setup.
  destruct (Post_date self) as [date|e|] eqn:Hdate; [|done..].
  rewrite (bind_Ret _ _ _ _ _ (lift_Ret _ _ _ eq_refl)).
  rewrite (bind_Ret _ _ _ _ _ (setattr_Ret _ _ _ _ _ Hd)).
  rewrite (bind_Ret _ _ _ _ _ (setattr_Ret _ _ _ _ _ (lookup_insert_eq _ _ _))).
  rewrite (bind_Ret _ _ _ _ _ (setattr_Ret _ _ _ _ _ (lookup_insert_eq _ _ _))).
  rewrite (bind_Ret _ _ _ _ _ (dict_get_Ret _ _ _ _ _ (lookup_insert_eq _ _ _))).
  rewrite (bind_Ret _ _ _ _ _ (dict_get_Ret _ _ _ _ _ (lookup_insert_eq _ _ _))).
  rewrite !lookup_insert_ne by done.
  fold (joined_categories d).
  destruct (joined_categories d) as [cats|e|] eqn:Hcats; [|done..].
  rewrite (bind_Ret _ _ _ _ _ (lift_Ret _ _ _ eq_refl)).
  rewrite (bind_Ret _ _ _ _ _ (del_if_present_Ret _ _ _ _ (lookup_insert_eq _ _ _))).
  rewrite (bind_Ret _ _ _ _ _ (del_if_present_Ret _ _ _ _ (lookup_insert_eq _ _ _))).
  rewrite (bind_Ret _ _ _ _ _ (setattr_Ret _ _ _ _ _ (lookup_insert_eq _ _ _))).
  rewrite !insert_insert_eq. reflexivity.
Qed.

(** ** Strings *)

Lemma append_cons c (a b : string) : String c a +:+ b = String c (a +:+ b).
Proof. reflexivity. Qed.

Lemma append_nil (b : string) : EmptyString +:+ b = b.
Proof. reflexivity. Qed.

Lemma eqc_refl c : Str.eqc c c = true.
Proof. apply Ascii.eqb_refl. Qed.

Lemma eqc_eq a b : Str.eqc a b = true ↔ a = b.
Proof. apply Ascii.eqb_eq. Qed.

Lemma eqc_sym a b : Str.eqc a b = Str.eqc b a.
Proof. apply Ascii.eqb_sym. Qed.

Lemma startswith_char a b s :
  Str.startswith (String a EmptyString) (String b s) = Str.eqc a b.
Proof. simpl. by rewrite andb_true_r. Qed.


Lemma lacks_cons c a s :
  Str.lacks c (String a s) = negb (Str.eqc a c) && Str.lacks c s.
Proof. unfold Str.lacks. simpl. by rewrite negb_orb. Qed.

Lemma lacks_app c (a b : string) :
  Str.lacks c (a +:+ b) = Str.lacks c a && Str.lacks c b.
Proof.
  induction a as [|x a IH]; [done|].
  rewrite append_cons, !lacks_cons, IH. by rewrite andb_assoc.
Qed.

Lemma lacks_take c n s : Str.lacks c s = true → Str.lacks c (Str.take n s) = true.
Proof.
  revert n. induction s as [|a s IH]; intros [|n]; try done.
  simpl Str.take. rewrite !lacks_cons. intros [-> H]%andb_prop. by rewrite IH.
Qed.

Lemma lacks_after_last c s : Str.lacks c (Str.drop (Str.after_last c s) s) = true.
Proof.
  induction s as [|a s IH]; [done|]. simpl Str.after_last.
  destruct (Str.after_last c s) as [|n] eqn:E.
  - simpl in IH. destruct (Str.eqc a c) eqn:Eac; simpl Str.drop.
    + destruct s; exact IH.
    + by rewrite lacks_cons, Eac, IH.
  - exact IH.
Qed.

Lemma lacks_startswith c s :
  Str.lacks c s = true → Str.startswith (String c EmptyString) s = false.
Proof.
  destruct s as [|a s]; [done|]. rewrite lacks_cons. simpl.
  intros [Hac _]%andb_prop. apply negb_true_iff in Hac.
  destruct (Str.eqc c a) eqn:E; [|done].
  apply eqc_eq in E as ->. by rewrite eqc_refl in Hac.
Qed.

Lemma endswithc_app c (a b : string) :
  Str.nonempty b = true → Str.endswithc c (a +:+ b) = Str.endswithc c b.
Proof.
  intros Hb. induction a as [|x a IH]; [done|].
  rewrite append_cons. simpl. rewrite IH.
  destruct (a +:+ b) eqn:E; [|done].
  destruct a, b; done.
Qed.

Lemma lacks_endswithc c s : Str.lacks c s = true → Str.endswithc c s = false.
Proof.
  induction s as [|a s IH]; [done|]. rewrite lacks_cons.
  intros [Hac Hs]%andb_prop. apply negb_true_iff in Hac. simpl.
  destruct s; [done|]. by apply IH.
Qed.

Lemma nonempty_app_r (a b : string) :
  Str.nonempty b = true → Str.nonempty (a +:+ b) = true.
Proof. by destruct a. Qed.

Lemma nonempty_app_l (a b : string) :
  Str.nonempty a = true → Str.nonempty (a +:+ b) = true.
Proof. by destruct a. Qed.

(** ** str.split *)

Lemma split_max_0 sep s : Str.split_max sep 0 s = [s].
Proof. by destruct s. Qed.

Lemma split_max_field sep n (a b : string) :
  Str.lacks sep a = true →
  Str.split_max sep (S n) (a +:+ String sep b) = a :: Str.split_max sep n b.
Proof.
  induction a as [|c a IH]; intros Ha.
  - rewrite append_nil. simpl. by rewrite eqc_refl.
  - rewrite lacks_cons in Ha. apply andb_prop in Ha as [Hc Ha].
    apply negb_true_iff in Hc. rewrite append_cons.
    change (Str.split_max sep (S n) (String c (a +:+ String sep b)))
      with (if Str.eqc c sep then EmptyString :: Str.split_max sep n (a +:+ String sep b)
            else match Str.split_max sep (S n) (a +:+ String sep b) with
                 | w :: ws => String c w :: ws
                 | [] => [String c EmptyString]
                 end).
    by rewrite Hc, (IH Ha).
Qed.

Lemma split_max_length sep n s :
  length (Str.split_max sep n s) = S (Nat.min n (Str.count sep s)).
Proof.
  revert n. induction s as [|c s IH]; intros n.
  - simpl. by rewrite Nat.min_0_r.
  - destruct n as [|n]; [done|]. simpl.
    destruct (Str.eqc c sep).
    + simpl. by rewrite IH.
    + specialize (IH (S n)).
      destruct (Str.split_max sep (S n) s) as [|w ws]; simpl in *; done.
Qed.

(** The stem of a post: [y-m-d-s], cut at its first three dashes. *)
Lemma split_stem (y m d s : string) :
  Str.lacks "-" y = true → Str.lacks "-" m = true → Str.lacks "-" d = true →
  Str.split_max "-" 3 (y +:+ "-" +:+ m +:+ "-" +:+ d +:+ "-" +:+ s) = [y; m; d; s].
Proof.
  intros Hy Hm Hd.
  change (Str.split_max "-" 3
            (y +:+ String "-" (m +:+ String "-" (d +:+ String "-" s)))
          = [y; m; d; s]).
  rewrite (split_max_field _ _ _ _ Hy), (split_max_field _ _ _ _ Hm),
    (split_max_field _ _ _ _ Hd).
  by rewrite split_max_0.
Qed.


Lemma append_assoc (a b c : string) : (a +:+ b) +:+ c = a +:+ b +:+ c.
Proof. induction a as [|x a IH]; [done|]. by rewrite !append_cons, IH. Qed.

(** ** os.path *)

Lemma basename_lacks_slash p : Str.lacks "/" (OsPath.basename p) = true.
Proof. apply lacks_after_last. Qed.

Lemma splitext_lacks c p :
  Str.lacks c p = true → Str.lacks c (OsPath.splitext p).1 = true.
Proof.
  intros H. unfold OsPath.splitext.
  case_bool_decide; [|done].
  destruct (Str.existsb _ _); [|done]. by apply lacks_take.
Qed.

Lemma stem_lacks_slash p : Str.lacks "/" (stem_of p) = true.
Proof. apply splitext_lacks, basename_lacks_slash. Qed.

Lemma join2_sep (a b : string) :
  Str.nonempty a = true → Str.endswithc "/" a = false →
  Str.lacks "/" b = true →
  OsPath.join2 a b = a +:+ "/" +:+ b.
Proof.
  intros Ha He Hb. unfold OsPath.join2.
  by rewrite (lacks_startswith _ _ Hb), Ha, He.
Qed.


(** The deploy-relative directory of a post. *)
Lemma Post_path_eq (t : Template) (y m d s : string) :
  Str.nonempty y = true → Str.nonempty m = true →
  Str.lacks "/" y = true → Str.lacks "/" m = true → Str.lacks "/" d = true →
  Post_path (mkPost t y m d s) = y +:+ "/" +:+ m +:+ "/" +:+ d.
Proof.
  intros Hy Hm Ly Lm Ld. unfold Post_path, OsPath.join. simpl.
  rewrite (join2_sep y m Hy (lacks_endswithc _ _ Ly) Lm).
  rewrite join2_sep; [by rewrite !append_assoc|..|done].
  - by apply nonempty_app_l.
  - rewrite !endswithc_app by (done || by apply nonempty_app_r).
    by apply lacks_endswithc.
Qed.

Lemma py_int_nonempty s z : Str.py_int s = Ret z → Str.nonempty s = true.
Proof. by destruct s. Qed.

(** ** Template.__init__ *)

Lemma fail_not_Ret {A} (e : exn) (h : heap) (r : A * heap) :
  raise e h = Ret r → False.
Proof. done. Qed.

Lemma iter_value_inv v (xs : list value) (h h' : heap) :
  iter_value v h = Ret (xs, h') → h' = h.
Proof.
  destruct v; simpl; try done.
  - by intros [_ ->]%mret_inv.
  - by intros [_ ->]%mret_inv.
  - by intros [_ ->]%mret_inv.
  - by intros (d & h3 & [_ ->]%deref_inv & [_ ->]%mret_inv)%bind_inv.
Qed.

Lemma pairs_of_items_inv items (es : list (key * value)) (h h' : heap) :
  pairs_of_items items h = Ret (es, h') → h' = h.
Proof.
  revert es h h'. induction items as [|item items IH]; intros es h h'; simpl.
  - by intros [_ ->]%mret_inv.
  - intros (p & h3 & Hp & (ps & h4 & Hps & [_ ->]%mret_inv)%bind_inv)%bind_inv.
    apply IH in Hps as ->.
    unfold pair_of_item in Hp.
    apply bind_inv in Hp as (xs & h5 & ->%iter_value_inv & Hp).
    destruct xs as [|a [|b [|]]]; try done.
    destruct (key_of a); [|done]. by apply mret_inv in Hp as [_ ->].
Qed.

(** A mutation rebinds the object it is applied to, and nothing else. *)
Lemma mutate_inv (h h' : heap) l m :
  mutate l m h = Ret (tt, h') →
  ∃ d d', h !! l = Some d ∧ h' = <[l := d']> h.
Proof.
  intros Hm.
  assert (∀ (v : value) (h1 h2 : heap),
    (items ← iter_value v; entries ← pairs_of_items items;
     d ← deref l; assign l (store_entries entries d)) h1 = Ret (tt, h2) →
    ∃ d d', h1 !! l = Some d ∧ h2 = <[l := d']> h1) as Hseq.
  { intros v h1 h2.
    intros (xs & h3 & ->%iter_value_inv & (es & h4 & ->%pairs_of_items_inv
      & (d & h5 & [Hd ->]%deref_inv & Ha)%bind_inv)%bind_inv)%bind_inv.
    unfold assign in Ha. simplify_eq. eauto. }
  destruct m as [k v|k|other]; simpl in Hm.
  - unfold dict_setitem in Hm.
    apply bind_inv in Hm as (d & h1 & [Hd ->]%deref_inv & Ha).
    unfold assign in Ha. simplify_eq. eauto.
  - unfold dict_delitem in Hm.
    apply bind_inv in Hm as (d & h1 & [Hd ->]%deref_inv & Ha).
    destruct (d !! k); [|done]. unfold assign in Ha. simplify_eq. eauto.
  - destruct other as [| | |s| |items|entries|l0]; simpl in Hm; try done.
    + by apply (Hseq (VStr s)) in Hm.
    + by apply (Hseq (VList items)) in Hm.
    + apply bind_inv in Hm as (d & h1 & [Hd ->]%deref_inv & Ha).
      unfold assign in Ha. simplify_eq. eauto.
    + apply bind_inv in Hm as (o & h1 & [_ ->]%deref_inv
        & (d & h2 & [Hd ->]%deref_inv & Ha)%bind_inv).
      unfold assign in Ha. simplify_eq. eauto.
Qed.

Lemma read_yaml_inv (self t : Template) (h h' : heap) d :
  h !! context self = Some d →
  Template_read_yaml self h = Ret (t, h') →
  ∃ c d', t = set_content self c ∧ h' = <[context self := d']> h.
Proof.
  intros Hd. unfold Template_read_yaml.
  intros (text & h1 & [_ ->]%lift_inv & H)%bind_inv.
  assert (∀ c, mret (set_content self c) h = Ret (t, h') →
    ∃ c d', t = set_content self c ∧ h' = <[context self := d']> h) as Hskip.
  { intros c [-> ->]%mret_inv. exists c, d. by rewrite insert_id. }
  destruct (Re.pymatch RE_YAML text) as [mo|]; [|eauto].
  destruct (Re.group "yaml" mo) as [y|]; [|eauto].
  destruct (Str.nonempty y); [|eauto].
  apply bind_inv in H as (meta & h2 & [_ ->]%lift_inv & H).
  apply bind_inv in H as ([] & h3 & Hupd & [-> ->]%mret_inv).
  apply (mutate_inv _ _ _ (Update meta)) in Hupd as (d0 & d' & _ & ->). eauto.
Qed.

Lemma Template_init_inv base deploy fname lays ctx (h h1 : heap) t :
  Template_init base deploy fname lays ctx h = Ret (t, h1) →
  ∃ c d0 d1,
    h !! ctx = Some d0
    ∧ t = mkTemplate base deploy fname lays (fresh (dom h)) c
    ∧ h1 = <[fresh (dom h) := d1]> h.
Proof.
  unfold Template_init.
  intros (own & h0 & (d0 & Hd0 & -> & ->)%copy_inv & H)%bind_inv.
  eapply read_yaml_inv in H as (c & d' & -> & ->); [|apply lookup_insert_eq].
  exists c, d0, d'. split; [done|]. split; [done|].
  simpl. by rewrite insert_insert_eq.
Qed.

(** ** Post.__init__ and the file name *)

Lemma valid_date_datetime y m d :
  Datetime.valid_date y m d = true →
  Datetime.datetime y m d = Ret (VDate y m d).
Proof.
  intros H. unfold Datetime.datetime. rewrite H.
  unfold Datetime.valid_date in H.
  repeat (apply andb_prop in H as [H ?]).
  assert (Datetime.days_in_month y m <= 31) as Hdim.
  { unfold Datetime.days_in_month.
    repeat match goal with |- context [if ?b then _ else _] => destruct b end; lia. }
  assert (Datetime.fits_int y && Datetime.fits_int m && Datetime.fits_int d = true) as ->;
    [|done].
  unfold Datetime.fits_int. rewrite !andb_true_iff. lia.
Qed.

Lemma joined_categories_Ret (d : dict) :
  str_or_absent (d !! KStr "category") → str_or_absent (d !! KStr "categories") →
  ∃ cats, joined_categories d = Ret cats.
Proof.
  unfold joined_categories.
  destruct (d !! KStr "category") as [[]|]; try done;
  destruct (d !! KStr "categories") as [[]|]; try done; intros _ _; by eexists.
Qed.

Lemma Post_date_Ret t y m d s vy vm vd :
  Str.py_int y = Ret vy → Str.py_int m = Ret vm → Str.py_int d = Ret vd →
  Post_date (mkPost t y m d s) = Datetime.datetime vy vm vd.
Proof. unfold Post_date. simpl. by intros -> -> ->. Qed.

Lemma py_int_exn s : Str.py_int s = Raise ValueError ∨ ∃ z, Str.py_int s = Ret z.
Proof.
  unfold Str.py_int.
  destruct (match Str.strip s with
            | String "-" r => (true, r)
            | String "+" r => (false, r)
            | _ => (false, Str.strip s)
            end) as [neg ds].
  destruct (_ && _); eauto.
Qed.

Lemma Post_date_not_numeric t y m d s :
  Str.numeric y && Str.numeric m && Str.numeric d = false →
  Post_date (mkPost t y m d s) = Raise ValueError.
Proof.
  unfold Post_date, Str.numeric. simpl.
  destruct (py_int_exn y) as [->|[vy ->]]; [done|].
  destruct (py_int_exn m) as [->|[vm ->]]; [done|].
  destruct (py_int_exn d) as [->|[vd ->]]; done.
Qed.

(** C1 -- Post construction and the file name.  Take a post file whose
    document loads ([Template.__init__] returns, leaving the merged context
    [dctx]).
    - If its stem is [year-month-day-slug], cut at the first three dashes,
      [int()] accepts year, month and day, the three numbers are a date of
      the calendar (year 1..9999, month 1..12, day within the month) and
      the [category] and [categories] values, when present, are strings,
      then construction succeeds, and [date], [path] and [url] are
      [datetime(int(year), int(month), int(day))], [year/month/day] and
      [year/month/day/slug], in the properties as in the context.
    - If the stem has fewer than three dashes, construction raises.
    - If [int()] rejects the year, the month or the day, construction
      raises. *)
Theorem Post_init_filename base deploy fname lays ctx (h h1 : heap) t (dctx : dict) :
  Template_init base deploy fname lays ctx h = Ret (t, h1) →
  h1 !! context t = Some dctx →
  (∀ y m d s vy vm vd,
      stem_of fname = y +:+ "-" +:+ m +:+ "-" +:+ d +:+ "-" +:+ s →
      Str.lacks "-" y = true → Str.lacks "-" m = true → Str.lacks "-" d = true →
      Str.py_int y = Ret vy → Str.py_int m = Ret vm → Str.py_int d = Ret vd →
      Datetime.valid_date vy vm vd = true →
      str_or_absent (dctx !! KStr "category") →
      str_or_absent (dctx !! KStr "categories") →
      ∃ h2 d2,
        Post_init base deploy fname lays ctx h = Ret (mkPost t y m d s, h2)
        ∧ Post_date (mkPost t y m d s) = Ret (VDate vy vm vd)
        ∧ Post_path (mkPost t y m d s) = y +:+ "/" +:+ m +:+ "/" +:+ d
        ∧ Post_url (mkPost t y m d s) = y +:+ "/" +:+ m +:+ "/" +:+ d +:+ "/" +:+ s
        ∧ h2 !! context t = Some d2
        ∧ d2 !! KStr "date" = Some (VDate vy vm vd)
        ∧ d2 !! KStr "path" = Some (VStr (y +:+ "/" +:+ m +:+ "/" +:+ d))
        ∧ d2 !! KStr "url" = Some (VStr (y +:+ "/" +:+ m +:+ "/" +:+ d +:+ "/" +:+ s)))
  ∧ ((Str.count "-" (stem_of fname) < 3)%nat →
      Post_init base deploy fname lays ctx h = Raise ValueError)
  ∧ (∀ y m d s,
      stem_of fname = y +:+ "-" +:+ m +:+ "-" +:+ d +:+ "-" +:+ s →
      Str.lacks "-" y = true → Str.lacks "-" m = true → Str.lacks "-" d = true →
      Str.numeric y && Str.numeric m && Str.numeric d = false →
      Post_init base deploy fname lays ctx h = Raise ValueError).
Proof.
  intros Hinit Hctx.
  assert (Post_init base deploy fname lays ctx h =
          match Str.split_max "-" 3 (stem_of fname) with
          | [y; m; d; s] => Post_setup (mkPost t y m d s) h1
          | _ => Raise ValueError
          end) as Heq.
  { unfold Post_init. rewrite (bind_Ret _ _ _ _ _ Hinit).
    by repeat case_match. }
  split; [|split].
  - intros y m d s vy vm vd Hstem Hy Hm Hd Iy Im Id Hvalid Hc1 Hc2.
    rewrite Heq, Hstem, (split_stem _ _ _ _ Hy Hm Hd).
    rewrite (Post_setup_eq (mkPost t y m d s) _ _ Hctx).
    rewrite (Post_date_Ret _ _ _ _ _ _ _ _ Iy Im Id), (valid_date_datetime _ _ _ Hvalid).
    destruct (joined_categories_Ret _ Hc1 Hc2) as [cats ->].
    pose proof (stem_lacks_slash fname) as Hs. rewrite Hstem in Hs.
    rewrite !lacks_app in Hs. repeat (apply andb_prop in Hs as [? Hs]).
    assert (Post_path (mkPost t y m d s) = y +:+ "/" +:+ m +:+ "/" +:+ d) as Hpath
      by eauto using Post_path_eq, py_int_nonempty.
    assert (Post_url (mkPost t y m d s)
            = y +:+ "/" +:+ m +:+ "/" +:+ d +:+ "/" +:+ s) as Hurl.
    { unfold Post_url. rewrite Hpath. simpl. by rewrite !append_assoc. }
    eexists _, _. split; [reflexivity|]. split; [done|]. split; [done|].
    split; [done|]. split; [apply lookup_insert_eq|].
    unfold post_context. rewrite Hpath, Hurl.
    split; [|split].
    + rewrite lookup_insert_ne, !lookup_delete_ne, !lookup_insert_ne by done.
      apply lookup_insert_eq.
    + rewrite lookup_insert_ne, !lookup_delete_ne by done. apply lookup_insert_eq.
    + rewrite lookup_insert_ne, !lookup_delete_ne, lookup_insert_ne by done.
      apply lookup_insert_eq.
  - intros Hcount. rewrite Heq.
    assert (length (Str.split_max "-" 3 (stem_of fname)) < 4)%nat as Hlen
      by (rewrite split_max_length; lia).
    destruct (Str.split_max "-" 3 (stem_of fname)) as [|? [|? [|? [|? [|]]]]];
      try done.
    simpl in Hlen. lia.
  - intros y m d s Hstem Hy Hm Hd Hnum.
    rewrite Heq, Hstem, (split_stem _ _ _ _ Hy Hm Hd).
    rewrite (Post_setup_eq (mkPost t y m d s) _ _ Hctx).
    by rewrite (Post_date_not_numeric _ _ _ _ _ Hnum).
Qed.

(** ** Post.__init__ and the categories *)

Lemma Post_init_inv base deploy fname lays ctx (h h2 : heap) p :
  Post_init base deploy fname lays ctx h = Ret (p, h2) →
  ∃ h1 dctx date cats,
    Template_init base deploy fname lays ctx h = Ret (tpl p, h1)
    ∧ h1 !! context (tpl p) = Some dctx
    ∧ Str.split_max "-" 3 (stem_of fname) = [year p; month p; day p; slug p]
    ∧ Post_date p = Ret date
    ∧ joined_categories dctx = Ret cats
    ∧ h2 = <[context (tpl p) := post_context p date cats dctx]> h1.
Proof.
  unfold Post_init. intros (t & h1 & Hinit & H)%bind_inv.
  destruct (Template_init_inv _ _ _ _ _ _ _ _ Hinit) as (c & d0 & d1 & _ & Ht & Hh1).
  assert (h1 !! context t = Some d1) as Hctx.
  { rewrite Hh1, Ht. apply lookup_insert_eq. }
  destruct (Str.split_max "-" 3 (stem_of fname)) as [|y [|m [|d [|s [|]]]]];
    try done.
  rewrite (Post_setup_eq (mkPost t y m d s) _ _ Hctx) in H.
  destruct (Post_date (mkPost t y m d s)) as [date| |] eqn:Hdate; try done.
  destruct (joined_categories d1) as [cats| |] eqn:Hcats; try done.
  injection H as <- <-. exists h1, d1, date, cats. done.
Qed.

(** C10 -- After every successful [Post] construction the context of the
    post has no [category] key and binds [categories] to a list of
    strings; that list is empty when the merged context of the document
    had neither key. *)
Theorem Post_init_categories base deploy fname lays ctx (h h2 : heap) p :
  Post_init base deploy fname lays ctx h = Ret (p, h2) →
  ∃ h1 dctx d2 cats,
    Template_init base deploy fname lays ctx h = Ret (tpl p, h1)
    ∧ h1 !! context (tpl p) = Some dctx
    ∧ h2 !! context (tpl p) = Some d2
    ∧ d2 !! KStr "category" = None
    ∧ d2 !! KStr "categories" = Some (VList (VStr <$> cats))
    ∧ (dctx !! KStr "category" = None → dctx !! KStr "categories" = None →
       cats = []).
Proof.
  intros (h1 & dctx & date & cats & Hinit & Hctx & _ & _ & Hcats & ->)%Post_init_inv.
  exists h1, dctx, (post_context p date cats dctx), (normalize_categories cats).
  split; [done|]. split; [done|]. split; [apply lookup_insert_eq|].
  unfold post_context. split; [|split].
  - rewrite lookup_insert_ne, lookup_delete_ne by done. apply lookup_delete_eq.
  - apply lookup_insert_eq.
  - intros H1 H2. unfold joined_categories in Hcats. rewrite H1, H2 in Hcats.
    vm_compute in Hcats. injection Hcats as <-. reflexivity.
Qed.

(** ** Post.write *)

Lemma split_cons sep s : ∃ w ws, Str.split sep s = w :: ws.
Proof.
  induction s as [|c s (w & ws & IH)]; simpl; [by eauto|].
  rewrite IH. destruct (Str.eqc c sep); eauto.
Qed.

Lemma split_app sep (a b : string) :
  Str.split sep (a +:+ String sep b) = Str.split sep a ++ Str.split sep b.
Proof.
  induction a as [|c a IH].
  - rewrite append_nil. simpl. by rewrite eqc_refl.
  - rewrite append_cons. simpl. rewrite IH.
    destruct (Str.eqc c sep); [done|].
    by destruct (split_cons sep a) as (w & ws & ->).
Qed.






(** ** Template.render and Template.layout *)

Lemma getattr_inv (h h' : heap) l name v :
  AttrDict.getattr l name h = Ret (v, h') →
  ∃ d, h !! l = Some d ∧ d !! KStr name = Some v ∧ h' = h.
Proof.
  unfold AttrDict.getattr. intros (d & h1 & [Hd ->]%deref_inv & H)%bind_inv.
  destruct (d !! KStr name) as [v'|] eqn:E; [|done].
  apply mret_inv in H as [-> ->]. eauto.
Qed.

(** [render()] up to the lookup of the layout: the copy of the context,
    with the rendered body bound to [content]. *)
Lemma render_eq (t : Template) (h : heap) (d : dict) body c :
  h !! context t = Some d →
  Template_transform t = Ret body →
  jinja_render body d = Ret c →
  Template_render t h =
    let d' := <[KStr "content" := VStr c]> d in
    let h' := <[fresh (dom h) := d']> h in
    match d !! KStr "layout" with
    | None => Raise (KeyError "layout")
    | Some name =>
        match layouts_get (layouts t) name with
        | Ret (Some l) =>
            match jinja_render (l_content l) d' with
            | Ret out => Ret (out, h')
            | Raise e => Raise e
            | Diverge => Diverge
            end
        | Ret None => Ret (c, h')
        | Raise e => Raise e
        | Diverge => Diverge
        end
    end.
Proof.
  intros Hd Hbody Hc. unfold Template_render.
  rewrite (bind_Ret _ _ _ _ _ (copy_Ret _ _ _ Hd)).
  rewrite (bind_Ret _ _ _ _ _ (lift_Ret _ _ _ Hbody)).
  rewrite (bind_Ret _ _ _ _ _ (deref_Ret _ _ _ (lookup_insert_eq _ _ _))).
  rewrite (bind_Ret _ _ _ _ _ (lift_Ret _ _ _ Hc)).
  rewrite (bind_Ret _ _ _ _ _ (setattr_Ret _ _ _ _ _ (lookup_insert_eq _ _ _))).
  rewrite insert_insert_eq. cbv zeta.
  set (d' := <[KStr "content" := VStr c]> d).
  set (h' := <[fresh (dom h) := d']> h).
  assert (h' !! fresh (dom h) = Some d') as Hd' by apply lookup_insert_eq.
  destruct (d !! KStr "layout") as [name|] eqn:Hname.
  - assert (d' !! KStr "layout" = Some name) as Hname'
      by by (unfold d'; rewrite lookup_insert_ne).
    rewrite (bind_Ret _ _ _ _ _ (getattr_Ret _ _ _ _ _ Hd' Hname')).
    destruct (layouts_get (layouts t) name) as [[l|]|e|] eqn:Hl; try done.
    + rewrite (bind_Ret _ _ _ _ _ (lift_Ret _ _ _ eq_refl)).
      rewrite (bind_Ret _ _ _ _ _ (deref_Ret _ _ _ Hd')).
      by destruct (jinja_render (l_content l) d').
    + rewrite (bind_Ret _ _ _ _ _ (lift_Ret _ _ _ eq_refl)).
      assert (d' !! KStr "content" = Some (VStr c)) as Hcontent
        by apply lookup_insert_eq.
      by rewrite (bind_Ret _ _ _ _ _ (getattr_Ret _ _ _ _ _ Hd' Hcontent)).
  - assert (d' !! KStr "layout" = None) as Hname'
      by by (unfold d'; rewrite lookup_insert_ne).
    by rewrite (bind_Raise _ _ _ _ (getattr_missing _ _ _ _ Hd' Hname')).
Qed.

(** [render()] returns only for a document whose context has a [layout]. *)
Lemma render_Ret_layout (t : Template) (h h' : heap) (d : dict) out :
  h !! context t = Some d →
  Template_render t h = Ret (out, h') →
  is_Some (d !! KStr "layout").
Proof.
  intros Hd. unfold Template_render.
  rewrite (bind_Ret _ _ _ _ _ (copy_Ret _ _ _ Hd)).
  intros (body & h1 & [_ ->]%lift_inv & H)%bind_inv.
  apply bind_inv in H as (d1 & h2 & [Hd1 ->]%deref_inv & H).
  rewrite lookup_insert_eq in Hd1. injection Hd1 as <-.
  apply bind_inv in H as (c & h3 & [_ ->]%lift_inv & H).
  rewrite (bind_Ret _ _ _ _ _ (setattr_Ret _ _ _ _ _ (lookup_insert_eq _ _ _))) in H.
  apply bind_inv in H as (name & h4 & (d2 & Hd2 & Hname & ->)%getattr_inv & _).
  rewrite lookup_insert_eq in Hd2. injection Hd2 as <-.
  rewrite lookup_insert_ne in Hname by done. eauto.
Qed.

(** [layout()] from the result of [render()] on: the second copy of the
    context, the lookup of the layout and of its parent, and the loop. *)
Lemma layout_eq fuel (t : Template) (h h2 : heap) (d : dict) c :
  h !! context t = Some d →
  Template_render t (<[fresh (dom h) := d]> h) = Ret (c, h2) →
  h2 !! fresh (dom h) = Some d →
  Template_layout fuel t h =
    let ctx := fresh (dom h) in
    let h3 := <[ctx := <[KStr "content" := VStr c]> d]> h2 in
    match d !! KStr "layout" with
    | None => Raise (KeyError "layout")
    | Some name =>
        match layouts_get (layouts t) name with
        | Ret (Some l) =>
            match h3 !! l_context l with
            | Some dl =>
                match layouts_get (layouts t) (default VNone (dl !! KStr "layout")) with
                | Ret first => layout_loop fuel t ctx first h3
                | Raise e => Raise e
                | Diverge => Diverge
                end
            | None => Raise (KeyError "<dangling reference>")
            end
        | Ret None => Ret (c, h3)
        | Raise e => Raise e
        | Diverge => Diverge
        end
    end.
Proof.
  intros Hd Hrender Hctx. unfold Template_layout.
  rewrite (bind_Ret _ _ _ _ _ (copy_Ret _ _ _ Hd)).
  rewrite (bind_Ret _ _ _ _ _ Hrender).
  rewrite (bind_Ret _ _ _ _ _ (setattr_Ret _ _ _ _ _ Hctx)).
  cbv zeta.
  set (ctx := fresh (dom h)).
  set (d' := <[KStr "content" := VStr c]> d).
  set (h3 := <[ctx := d']> h2).
  assert (h3 !! ctx = Some d') as Hd' by apply lookup_insert_eq.
  destruct (d !! KStr "layout") as [name|] eqn:Hname.
  - assert (d' !! KStr "layout" = Some name) as Hname'
      by by (unfold d'; rewrite lookup_insert_ne).
    rewrite (bind_Ret _ _ _ _ _ (getattr_Ret _ _ _ _ _ Hd' Hname')).
    destruct (layouts_get (layouts t) name) as [[l|]|e|] eqn:Hl; try done.
    + rewrite (bind_Ret _ _ _ _ _ (lift_Ret _ _ _ eq_refl)).
      destruct (h3 !! l_context l) as [dl|] eqn:Hdl.
      * assert ((parent ← Layout_layout l; lift (layouts_get (layouts t) parent)) h3
                = lift (layouts_get (layouts t) (default VNone (dl !! KStr "layout"))) h3)
          as Hparent.
        { unfold Layout_layout.
          by rewrite (bind_Ret _ _ _ _ _ (dict_get_Ret _ _ _ _ _ Hdl)). }
        destruct (layouts_get (layouts t) (default VNone (dl !! KStr "layout")))
          as [first|e|]; simpl in Hparent.
        -- by rewrite (bind_Ret _ _ _ _ _ Hparent).
        -- by rewrite (bind_Raise _ _ _ _ Hparent).
        -- by rewrite (bind_Diverge _ _ _ Hparent).
      * assert ((parent ← Layout_layout l; lift (layouts_get (layouts t) parent)) h3
                = Raise (KeyError "<dangling reference>")) as Hparent.
        { unfold Layout_layout, dict_get, deref, mbind, M_bind, mbnd.
          by rewrite Hdl. }
        by rewrite (bind_Raise _ _ _ _ Hparent).
    + rewrite (bind_Ret _ _ _ _ _ (lift_Ret _ _ _ eq_refl)).
      rewrite (bind_Ret _ _ _ _ _ (mret_inv_refl _ _)).
      assert (d' !! KStr "content" = Some (VStr c)) as Hcontent
        by apply lookup_insert_eq.
      destruct fuel; simpl;
        by rewrite (bind_Ret _ _ _ _ _ (getattr_Ret _ _ _ _ _ Hd' Hcontent)).
  - assert (d' !! KStr "layout" = None) as Hname'
      by by (unfold d'; rewrite lookup_insert_ne).
    by rewrite (bind_Raise _ _ _ _ (getattr_missing _ _ _ _ Hd' Hname')).
Qed.

Lemma layouts_get_unknown (ls : gmap string Layout) name k :
  key_of name = Some k → (∀ s, k = KStr s → ls !! s = None) →
  layouts_get ls name = Ret None.
Proof.
  intros Hk Hls. unfold layouts_get. rewrite Hk.
  destruct k; try done. by rewrite (Hls s eq_refl).
Qed.

(** The first steps of [layout()]: the copy of the context, in which
    [render()] then runs. *)
Lemma layout_render fuel (t : Template) (h : heap) (d : dict) :
  h !! context t = Some d →
  (<[fresh (dom h) := d]> h) !! context t = Some d
  ∧ ∀ e, Template_render t (<[fresh (dom h) := d]> h) = Raise e →
         Template_layout fuel t h = Raise e.
Proof.
  intros Hd. split.
  - rewrite lookup_insert_ne; [done|]. by eapply fresh_ne.
  - intros e He. unfold Template_layout.
    rewrite (bind_Ret _ _ _ _ _ (copy_Ret _ _ _ Hd)).
    by rewrite (bind_Raise _ _ _ _ He).
Qed.

(** C3 -- A layout that the mapping does not have.  If the context of a
    document binds [layout] to a hashable value (a string, a number, a
    date, [None]) that is no key of the layout mapping, and the body of the
    document itself renders, then [render()] returns the rendered body as
    it is, and [layout()] returns that same text: no layout is applied and
    nothing is raised. *)
Theorem render_unknown_layout fuel (t : Template) (h : heap) (d : dict)
    (name : value) (k : key) (body c : string) :
  h !! context t = Some d →
  d !! KStr "layout" = Some name →
  key_of name = Some k →
  (∀ s, k = KStr s → layouts t !! s = None) →
  Template_transform t = Ret body →
  jinja_render body d = Ret c →
  (∃ h', Template_render t h = Ret (c, h'))
  ∧ (∃ h', Template_layout fuel t h = Ret (c, h')).
Proof.
  intros Hd Hname Hk Hls Hbody Hc.
  pose proof (layouts_get_unknown _ _ _ Hk Hls) as Hget.
  split.
  - eexists. rewrite (render_eq t h d body c Hd Hbody Hc). cbv zeta.
    by rewrite Hname, Hget.
  - destruct (layout_render fuel t h d Hd) as [Hd1 _].
    set (h1 := <[fresh (dom h) := d]> h) in *.
    assert (Template_render t h1
            = Ret (c, <[fresh (dom h1) := <[KStr "content" := VStr c]> d]> h1))
      as Hrender.
    { rewrite (render_eq t h1 d body c Hd1 Hbody Hc). cbv zeta.
      by rewrite Hname, Hget. }
    eexists. rewrite (layout_eq fuel t h _ d c Hd Hrender); cbv zeta.
    + by rewrite Hname, Hget.
    + rewrite lookup_insert_ne; [apply lookup_insert_eq|].
      eapply fresh_ne. apply lookup_insert_eq.
Qed.

(** C9 -- A context without [layout].  If the merged context of a
    document has no [layout] key, neither [render()] nor [layout()] ever
    returns; once the body of the document has rendered, what they raise is
    the [KeyError] of the attribute lookup [ctx.layout]. *)
Theorem render_without_layout (t : Template) (h : heap) (d : dict) :
  h !! context t = Some d →
  d !! KStr "layout" = None →
  (∀ out h', Template_render t h ≠ Ret (out, h'))
  ∧ (∀ fuel out h', Template_layout fuel t h ≠ Ret (out, h'))
  ∧ (∀ body c,
       Template_transform t = Ret body → jinja_render body d = Ret c →
       Template_render t h = Raise (KeyError "layout")
       ∧ ∀ fuel, Template_layout fuel t h = Raise (KeyError "layout")).
Proof.
  intros Hd Hnone. split; [|split].
  - intros out h' Hret.
    destruct (render_Ret_layout t h h' d out Hd Hret) as [v Hv]. congruence.
  - intros fuel out h' Hret. unfold Template_layout in Hret.
    rewrite (bind_Ret _ _ _ _ _ (copy_Ret _ _ _ Hd)) in Hret.
    apply bind_inv in Hret as (c & h2 & Hrender & _).
    destruct (layout_render fuel t h d Hd) as [Hd1 _].
    destruct (render_Ret_layout t _ h2 d c Hd1 Hrender) as [v Hv]. congruence.
  - intros body c Hbody Hc. split.
    + rewrite (render_eq t h d body c Hd Hbody Hc). cbv zeta. by rewrite Hnone.
    + intros fuel. destruct (layout_render fuel t h d Hd) as [Hd1 Hraise].
      apply Hraise.
      rewrite (render_eq t _ d body c Hd1 Hbody Hc). cbv zeta. by rewrite Hnone.
Qed.

(** ** The chain walk of Template.layout *)

Lemma layouts_get_Diverge (ls : gmap string Layout) v :
  layouts_get ls v = Diverge → False.
Proof. unfold layouts_get. by repeat case_match. Qed.

Lemma loop_step fuel (t : Template) ctx (h : heap) l (dc dl : dict) c :
  h !! ctx = Some dc →
  h !! l_context l = Some dl →
  l_context l ≠ ctx →
  jinja_render (l_content l) dc = Ret c →
  layout_loop (S fuel) t ctx (Some l) h =
    match layouts_get (layouts t) (default VNone (dl !! KStr "layout")) with
    | Ret next =>
        layout_loop fuel t ctx next (<[ctx := <[KStr "content" := VStr c]> dc]> h)
    | Raise e => Raise e
    | Diverge => Diverge
    end.
Proof.
  intros Hdc Hdl Hne Hc. simpl.
  rewrite (bind_Ret _ _ _ _ _ (deref_Ret _ _ _ Hdc)).
  rewrite (bind_Ret _ _ _ _ _ (lift_Ret _ _ _ Hc)).
  rewrite (bind_Ret _ _ _ _ _ (setattr_Ret _ _ _ _ _ Hdc)).
  assert ((<[ctx := <[KStr "content" := VStr c]> dc]> h) !! l_context l = Some dl)
    as Hdl' by by rewrite lookup_insert_ne.
  unfold Layout_layout.
  rewrite (bind_Ret _ _ _ _ _ (dict_get_Ret _ _ _ _ _ Hdl')).
  by destruct (layouts_get (layouts t) (default VNone (dl !! KStr "layout")))
    as [next|e|].
Qed.

Lemma loop_end fuel (t : Template) ctx (h : heap) :
  terminates (layout_loop fuel t ctx None h).
Proof.
  assert (layout_loop fuel t ctx None h
          = (v ← AttrDict.getattr ctx "content"; lift (as_str v)) h) as ->
    by by destruct fuel.
  unfold AttrDict.getattr, deref, mbind, M_bind, mbnd, mret, raise.
  destruct (h !! ctx) as [d|]; [|done].
  destruct (d !! KStr "content") as [[]|]; done.
Qed.

(** On a set of layouts that the walk cannot leave, and whose bodies all
    render, the walk of [layout()] runs out of every budget. *)
Lemma cycle_diverges (P : Layout → Prop) (t : Template) ctx :
  (∀ l, P l → ∀ dd, ∃ out, jinja_render (l_content l) dd = Ret out) →
  ∀ fuel (h : heap) dc l,
    P l → h !! ctx = Some dc →
    (∀ l, P l →
       l_context l ≠ ctx
       ∧ ∃ dl l', h !! l_context l = Some dl
                  ∧ layouts_get (layouts t) (default VNone (dl !! KStr "layout"))
                    = Ret (Some l')
                  ∧ P l') →
    layout_loop fuel t ctx (Some l) h = Diverge.
Proof.
  intros Hrender. induction fuel as [|fuel IH]; intros h dc l Hl Hdc Hcyc; [done|].
  destruct (Hcyc l Hl) as (Hne & dl & l' & Hdl & Hnext & Hl').
  destruct (Hrender l Hl dc) as [out Hout].
  rewrite (loop_step fuel t ctx h l dc dl out Hdc Hdl Hne Hout), Hnext.
  eapply IH; [done|apply lookup_insert_eq|].
  intros l0 Hl0. destruct (Hcyc l0 Hl0) as (Hne0 & dl0 & l0' & Hdl0 & Hnext0 & Hl0').
  split; [done|]. exists dl0, l0'. by rewrite lookup_insert_ne.
Qed.

(** On a chain of parents that ends, the walk ends too, whatever the
    document context holds. *)
Lemma loop_terminates (t : Template) ctx (h0 : heap) lay :
  chain_ends (layouts t) h0 lay →
  h0 !! ctx = None →
  (∀ src dd, terminates (jinja_render src dd)) →
  ∃ n, ∀ fuel (h : heap),
    (n ≤ fuel)%nat → h0 ⊆ h → is_Some (h !! ctx) →
    terminates (layout_loop fuel t ctx lay h).
Proof.
  intros Hchain Hfresh Hjinja.
  assert (∀ l (h : heap) dl fuel,
    h0 !! l_context l = Some dl → h0 ⊆ h → is_Some (h !! ctx) →
    (∀ dc c next,
        h !! ctx = Some dc →
        layouts_get (layouts t) (default VNone (dl !! KStr "layout")) = Ret next →
        terminates (layout_loop fuel t ctx next
                      (<[ctx := <[KStr "content" := VStr c]> dc]> h))) →
    terminates (layout_loop (S fuel) t ctx (Some l) h)) as Hstep.
  { intros l h dl fuel Hdl Hsub [dc Hdc] Hnext.
    assert (h !! l_context l = Some dl) as Hdl' by by eapply lookup_weaken.
    assert (l_context l ≠ ctx) as Hne by (intros E; rewrite E in Hdl; congruence).
    pose proof (Hjinja (l_content l) dc) as Hj.
    destruct (jinja_render (l_content l) dc) as [c|e|] eqn:Hc; [| |done].
    - rewrite (loop_step fuel t ctx h l dc dl c Hdc Hdl' Hne Hc).
      destruct (layouts_get (layouts t) (default VNone (dl !! KStr "layout")))
        as [next|e|] eqn:Hget; [by eapply Hnext|done|].
      by destruct (layouts_get_Diverge _ _ Hget).
    - simpl. rewrite (bind_Ret _ _ _ _ _ (deref_Ret _ _ _ Hdc)).
      by rewrite (bind_Raise _ _ _ _ (lift_Raise _ _ _ Hc)). }
  induction Hchain as [|l e [dl Hdl] Hnext|l next [dl Hdl] Hnext Hchain IH].
  - exists 0%nat. intros fuel h _ _ _. apply loop_end.
  - exists 1%nat. intros [|fuel] h Hfuel Hsub Hctx; [lia|].
    eapply Hstep; [done..|]. intros dc c next _ Hget.
    unfold next_layout in Hnext. rewrite Hdl in Hnext. congruence.
  - destruct IH as [n IH]. exists (S n). intros [|fuel] h Hfuel Hsub Hctx; [lia|].
    eapply Hstep; [done..|]. intros dc c next' Hdc Hget.
    unfold next_layout in Hnext. rewrite Hdl in Hnext.
    assert (next' = next) as -> by congruence.
    apply IH; [lia| |by rewrite lookup_insert_eq].
    by apply insert_subseteq_r.
Qed.

Lemma render_raise_transform (t : Template) (h : heap) (d : dict) e :
  h !! context t = Some d → Template_transform t = Raise e →
  Template_render t h = Raise e.
Proof.
  intros Hd He. unfold Template_render.
  rewrite (bind_Ret _ _ _ _ _ (copy_Ret _ _ _ Hd)).
  by rewrite (bind_Raise _ _ _ _ (lift_Raise _ _ _ He)).
Qed.

Lemma render_raise_body (t : Template) (h : heap) (d : dict) body e :
  h !! context t = Some d → Template_transform t = Ret body →
  jinja_render body d = Raise e →
  Template_render t h = Raise e.
Proof.
  intros Hd Hbody He. unfold Template_render.
  rewrite (bind_Ret _ _ _ _ _ (copy_Ret _ _ _ Hd)).
  rewrite (bind_Ret _ _ _ _ _ (lift_Ret _ _ _ Hbody)).
  rewrite (bind_Ret _ _ _ _ _ (deref_Ret _ _ _ (lookup_insert_eq _ _ _))).
  by rewrite (bind_Raise _ _ _ _ (lift_Raise _ _ _ He)).
Qed.

(** C4 -- Termination of the chain walk.  [layout()] comes to an end (it
    returns or raises) on every document whose chain of declared parent
    layouts, followed from the layout of the document, ends: at a name that
    the mapping does not have or at a parent that cannot be looked up.  The
    transformer of the document and the template engine are taken to come
    to an end themselves. *)
Theorem layout_terminates (t : Template) (h : heap) (d : dict) :
  h !! context t = Some d →
  terminates (Template_transform t) →
  (∀ src dd, terminates (jinja_render src dd)) →
  (∀ name l,
      d !! KStr "layout" = Some name →
      layouts_get (layouts t) name = Ret (Some l) →
      chain_ends (layouts t) h (Some l)) →
  ∃ n, ∀ fuel, (n ≤ fuel)%nat → terminates (Template_layout fuel t h).
Proof using jinja_render transformers.
  clear fs yaml_load.
  intros Hd Htrans Hjinja Hchain.
  set (ctx := fresh (dom h)).
  set (h1 := <[ctx := d]> h).
  assert (h !! ctx = None) as Hfresh by apply fresh_unbound.
  assert (h1 !! context t = Some d) as Hd1.
  { unfold h1. rewrite lookup_insert_ne; [done|]. by eapply fresh_ne. }
  assert (∀ e fuel, Template_render t h1 = Raise e →
                    terminates (Template_layout fuel t h)) as Hraise.
  { intros e fuel He.
    by rewrite (proj2 (layout_render fuel t h d Hd) e He). }
  destruct (Template_transform t) as [body|e|] eqn:Hbody; [| |done].
  2: { exists 0%nat. intros fuel _. eapply Hraise.
       by eapply render_raise_transform. }
  pose proof (Hjinja body d) as Hj.
  destruct (jinja_render body d) as [c|e|] eqn:Hc; [| |done].
  2: { exists 0%nat. intros fuel _. eapply Hraise.
       by eapply render_raise_body. }
  pose proof (render_eq t h1 d body c Hd1 Hbody Hc) as Hrender. cbv zeta in Hrender.
  set (h2 := <[fresh (dom h1) := <[KStr "content" := VStr c]> d]> h1) in *.
  assert (h2 !! ctx = Some d) as Hctx2.
  { unfold h2. rewrite lookup_insert_ne; [apply lookup_insert_eq|].
    eapply fresh_ne. apply lookup_insert_eq. }
  assert (∀ out, h ⊆ <[ctx := <[KStr "content" := VStr out]> d]> h2) as Hsub.
  { intros out. apply insert_subseteq_r; [done|].
    unfold h2. apply insert_subseteq_r.
    - apply not_elem_of_dom. intros Hin.
      apply (is_fresh (dom h1)). unfold h1 at 2. rewrite dom_insert. set_solver.
    - by apply insert_subseteq. }
  destruct (d !! KStr "layout") as [name|] eqn:Hname.
  2: { exists 0%nat. intros fuel _. by eapply Hraise. }
  destruct (layouts_get (layouts t) name) as [[l|]|e|] eqn:Hget.
  - pose proof (Hjinja (l_content l) (<[KStr "content" := VStr c]> d)) as Hj'.
    destruct (jinja_render (l_content l) (<[KStr "content" := VStr c]> d))
      as [out|e|] eqn:Hout; [| |done].
    2: { exists 0%nat. intros fuel _. by eapply Hraise. }
    specialize (Hchain name l eq_refl Hget).
    assert (∃ dl, h !! l_context l = Some dl
                  ∧ next_layout (layouts t) h l
                    = layouts_get (layouts t) (default VNone (dl !! KStr "layout")))
      as (dl & Hdl & Hnext).
    { inversion Hchain as [|? ? [dl Hdl] _|? ? [dl Hdl] _ _]; subst;
        exists dl; unfold next_layout; by rewrite Hdl. }
    assert (∃ n, ∀ fuel first (h3 : heap),
               (n ≤ fuel)%nat →
               layouts_get (layouts t) (default VNone (dl !! KStr "layout"))
                 = Ret first →
               h ⊆ h3 → is_Some (h3 !! ctx) →
               terminates (layout_loop fuel t ctx first h3)) as [n Hloop].
    { inversion Hchain as [|? e _ Hstop|? next _ Hgo Hrest]; subst.
      - exists 0%nat. intros fuel first h3 _ Hfirst. congruence.
      - destruct (loop_terminates t ctx h next Hrest Hfresh Hjinja) as [n Hn].
        exists n. intros fuel first h3 Hfuel Hfirst Hsub3 Hctx3.
        assert (first = next) as -> by congruence. by apply Hn. }
    exists n. intros fuel Hfuel.
    rewrite (layout_eq fuel t h h2 d out Hd Hrender Hctx2). cbv zeta.
    rewrite Hname, Hget. fold ctx.
    rewrite (lookup_weaken _ _ _ _ Hdl (Hsub out)).
    destruct (layouts_get (layouts t) (default VNone (dl !! KStr "layout")))
      as [first|e|] eqn:Hfirst; [|done|].
    + apply Hloop; [done|done|apply Hsub|]. by rewrite lookup_insert_eq.
    + inversion Hchain as [|? e _ Hstop|? next _ Hgo _]; subst; congruence.
  - exists 0%nat. intros fuel _.
    rewrite (layout_eq fuel t h h2 d c Hd Hrender Hctx2). cbv zeta.
    by rewrite Hname, Hget.
  - exists 0%nat. intros fuel _. by eapply Hraise.
  - (* a lookup of the layout mapping never loops *)
    by destruct (layouts_get_Diverge _ _ Hget).
Qed.

(** ** Site.calc_categories *)







(** ** The matcher *)

(** The character before the position, once [w] has been consumed. *)
Fixpoint last_char (p : option ascii) (w : string) : option ascii :=
  match w with
  | EmptyString => p
  | String c w' => last_char (Some c) w'
  end.

Lemma last_char_app p (a b : string) :
  last_char p (a +:+ b) = last_char (last_char p a) b.
Proof. revert p. induction a as [|c a IH]; intros p; [done|]. apply IH. Qed.

Lemma length_append (a b : string) :
  String.length (a +:+ b) = (String.length a + String.length b)%nat.
Proof. induction a as [|c a IH]; [done|]. rewrite append_cons. simpl. by rewrite IH. Qed.

Lemma take_length s : Str.take (String.length s) s = s.
Proof. induction s as [|c s IH]; [done|]. simpl. by rewrite IH. Qed.

Lemma take_app_length (a b : string) :
  Str.take (String.length (a +:+ b) - String.length b) (a +:+ b) = a.
Proof.
  rewrite length_append, Nat.add_sub.
  induction a as [|c a IH]; [by destruct b|].
  rewrite append_cons. simpl. by rewrite IH.
Qed.

Lemma eat_Some lit p s p' s' :
  Re.eat lit p s = Some (p', s') → s = lit +:+ s' ∧ p' = last_char p lit.
Proof.
  revert p s. induction lit as [|a lit IH]; intros p s; simpl.
  - intros; by simplify_eq.
  - destruct s as [|b s]; [done|].
    destruct (Str.eqc a b) eqn:E; [|done].
    apply eqc_eq in E as <-. intros [-> ->]%IH. by rewrite append_cons.
Qed.

Lemma eat_app lit p s : Re.eat lit p (lit +:+ s) = Some (last_char p lit, s).
Proof.
  revert p. induction lit as [|a lit IH]; intros p; [done|].
  rewrite append_cons. simpl. by rewrite eqc_refl, IH.
Qed.

Lemma star_greedy_Some cl k g p s r :
  Re.star_greedy cl k g p s = Some r →
  ∃ w s', s = w +:+ s' ∧ Str.forallb (Re.cmatch cl) w = true
          ∧ k (Re.MState (last_char p w) s' g) = Some r.
Proof.
  revert p. induction s as [|c s IH]; intros p; simpl.
  - intros H. by exists EmptyString, EmptyString.
  - destruct (Re.cmatch cl c) eqn:Hc.
    + destruct (Re.star_greedy cl k g (Some c) s) as [r'|] eqn:Hrec.
      * intros ?; simplify_eq.
        destruct (IH _ Hrec) as (w & s' & -> & Hw & Hk).
        exists (String c w), s'. simpl. by rewrite Hc, Hw.
      * intros H. by exists EmptyString, (String c s).
    + intros H. by exists EmptyString, (String c s).
Qed.

Lemma star_greedy_None cl k g p s :
  Re.star_greedy cl k g p s = None →
  ∀ w s', s = w +:+ s' → Str.forallb (Re.cmatch cl) w = true →
          k (Re.MState (last_char p w) s' g) = None.
Proof.
  revert p. induction s as [|c s IH]; intros p; simpl.
  - intros H [|? ?] s'; [|done]. rewrite append_nil. by intros <-.
  - intros H [|a w] s'.
    + rewrite append_nil. intros <- _. simpl.
      destruct (Re.cmatch cl c); [|done].
      by destruct (Re.star_greedy cl k g (Some c) s).
    + rewrite append_cons. intros [= <- ->]. simpl.
      intros [Hc Hw]%andb_prop. rewrite Hc in H.
      destruct (Re.star_greedy cl k g (Some c) (w +:+ s')) eqn:Hrec; [done|].
      by eapply IH.
Qed.



(** [.*] under [re.S] with a continuation that accepts everything takes
    the whole rest of the subject. *)
Lemma star_any_all (k : Re.mstate → option Re.mstate) g p s :
  (∀ st, is_Some (k st)) →
  Re.star_greedy Re.Any k g p s = k (Re.MState (last_char p s) EmptyString g).
Proof.
  intros Hk. revert p. induction s as [|c s IH]; intros p; [done|].
  simpl. rewrite IH. by destruct (Hk (Re.MState (last_char (Some c) s) "" g)) as [r ->].
Qed.

(** The [content] group from a position on: the rest of the subject. *)
Lemma run_content (st : Re.mstate) :
  Re.run (Re.Named "content" (Re.Star Re.Any)) Some st
  = Some (Re.MState (last_char (Re.prev st) (Re.rest st)) EmptyString
            (("content", Re.rest st) :: Re.groups st)).
Proof.
  simpl. rewrite star_any_all by (intros; by eexists).
  unfold Re.capture. simpl. by rewrite Nat.sub_0_r, take_length.
Qed.

(** ** RE_YAML *)

Lemma pymatch_RE_YAML text :
  Re.pymatch RE_YAML text =
    match Re.run block_re content_k (Re.MState None text []) with
    | Some mo => Some mo
    | None => content_k (Re.MState None text [])
    end.
Proof. reflexivity. Qed.

Lemma at_eol_rest p s g :
  Re.at_eol (Re.MState p s g) = true →
  s = EmptyString ∨ Str.startswith Ex.nl s = true.
Proof.
  unfold Re.at_eol. cbn [Re.rest]. destruct s as [|c s]; [by left|].
  intros E. right. unfold Ex.nl. by rewrite startswith_char, eqc_sym.
Qed.

Lemma last_char_endswith p c s :
  Str.nonempty s = true →
  last_char p s = Some c → Str.endswithc c s = Str.eqc c c.
Proof.
  revert p. induction s as [|a s IH]; intros p; [done|]. intros _.
  destruct s as [|b s]; simpl.
  - intros [= ->]. done.
  - intros H. by apply (IH (Some a)).
Qed.

Lemma last_char_None p s : Str.nonempty s = true → last_char p s ≠ None.
Proof.
  revert p. induction s as [|a s IH]; intros p; [done|]. intros _.
  destruct s as [|b s]; [done|]. by apply (IH (Some a)).
Qed.



Lemma endswithc_last_char p c s :
  Str.endswithc c s = true → last_char p s = Some c.
Proof.
  revert p. induction s as [|a s IH]; intros p; [done|].
  destruct s as [|b s]; simpl.
  - by intros ->%eqc_eq.
  - intros H. by apply (IH (Some a)).
Qed.

Lemma at_eol_startswith p (s t : string) g :
  Str.startswith Ex.nl s = true → Re.at_eol (Re.MState p (s +:+ t) g) = true.
Proof.
  destruct s as [|c s]; [done|]. unfold Ex.nl. rewrite startswith_char, eqc_sym.
  intros E. unfold Re.at_eol. cbn [Re.rest]. by rewrite append_cons.
Qed.

Lemma at_eol_body p body g :
  body = EmptyString ∨ Str.startswith Ex.nl body = true →
  Re.at_eol (Re.MState p body g) = true.
Proof.
  intros [->|H]; [done|].
  rewrite <- (at_eol_startswith p body EmptyString g H).
  unfold Re.at_eol. cbn [Re.rest]. by destruct body.
Qed.



(** ** Template.read_yaml *)




(* ===================================================================== *)
(** * Further properties of the program                                   *)
(* ===================================================================== *)

(** ** Construction and the store *)

(** [Template.__init__] gives the document a context of its own: a new
    object of the store, while every object that was there (the base
    context among them) keeps its bindings. *)
Theorem Template_init_own_context base deploy fname lays ctx (h h1 : heap) t :
  Template_init base deploy fname lays ctx h = Ret (t, h1) →
  h !! context t = None
  ∧ is_Some (h1 !! context t)
  ∧ (∀ l d, h !! l = Some d → h1 !! l = Some d)
  ∧ dom h1 = {[context t]} ∪ dom h
  ∧ filename t = fname ∧ layouts t = lays
  ∧ BASE_DIR t = base ∧ DEPLOY_DIR t = deploy.
Proof.
  intros (c & d0 & d1 & Hctx & -> & ->)%Template_init_inv. simpl.
  split; [apply fresh_unbound|]. split; [by rewrite lookup_insert_eq|].
  split.
  { intros l d Hl. rewrite lookup_insert_ne; [done|].
    intros <-. by rewrite fresh_unbound in Hl. }
  split; [|done]. apply dom_insert_L.
Qed.

Lemma Post_init_store base deploy fname lays ctx (h h2 : heap) p :
  Post_init base deploy fname lays ctx h = Ret (p, h2) →
  ∃ dctx date cats,
    h !! context (tpl p) = None
    ∧ h2 = <[context (tpl p) := post_context p date cats dctx]> h
    ∧ Template_init base deploy fname lays ctx h
      = Ret (tpl p, <[context (tpl p) := dctx]> h)
    ∧ joined_categories dctx = Ret cats
    ∧ filename (tpl p) = fname.
Proof.
  intros (h1 & dctx & date & cats & Hinit & Hctx & _ & _ & Hcats & ->)%Post_init_inv.
  destruct (Template_init_inv _ _ _ _ _ _ _ _ Hinit) as (c & d0 & d1 & _ & Ht & ->).
  exists dctx, date, cats.
  assert (context (tpl p) = fresh (dom h)) as Hfresh by by rewrite Ht.
  rewrite Hfresh in *. rewrite lookup_insert_eq in Hctx. injection Hctx as ->.
  split; [apply fresh_unbound|]. split; [by rewrite insert_insert_eq|].
  split; [done|]. split; [done|]. by rewrite Ht.
Qed.

(** [Post.__init__] changes no object that was in the store, and in the
    context of the post it only binds [date], [url], [path] and
    [categories] and removes [category]: every other key keeps the value
    that the base context and the metadata gave it. *)
Theorem Post_init_keeps_metadata base deploy fname lays ctx (h h2 : heap) p :
  Post_init base deploy fname lays ctx h = Ret (p, h2) →
  h !! context (tpl p) = None
  ∧ (∀ l d, h !! l = Some d → h2 !! l = Some d)
  ∧ ∃ h1 dctx d2,
      Template_init base deploy fname lays ctx h = Ret (tpl p, h1)
      ∧ h1 !! context (tpl p) = Some dctx
      ∧ h2 !! context (tpl p) = Some d2
      ∧ ∀ k, k ∉ [KStr "date"; KStr "url"; KStr "path";
                  KStr "category"; KStr "categories"] →
             d2 !! k = dctx !! k.
Proof.
  intros (dctx & date & cats & Hfresh & -> & Hinit & _ & _)%Post_init_store.
  split; [done|]. split.
  { intros l d Hl. rewrite lookup_insert_ne; [done|]. congruence. }
  eexists _, dctx, _. split; [exact Hinit|].
  split; [apply lookup_insert_eq|]. split; [apply lookup_insert_eq|].
  intros k Hk. unfold post_context.
  rewrite !not_elem_of_cons in Hk. destruct Hk as (? & ? & ? & ? & ? & _).
  by rewrite lookup_insert_ne, !lookup_delete_ne, !lookup_insert_ne.
Qed.

Lemma normalize_categories_app (a b : string) :
  normalize_categories (a +:+ "," +:+ b)
  = normalize_categories a ++ normalize_categories b.
Proof.
  unfold normalize_categories.
  change (a +:+ "," +:+ b) with (a +:+ String "," b).
  by rewrite split_app, filter_app, fmap_app.
Qed.

(** The categories of a post are the tokens of its [category] value
    followed by the tokens of its [categories] value (a missing key counts
    as the empty string): singular before plural, each in its own order. *)
Theorem Post_init_category_order base deploy fname lays ctx (h h2 : heap) p :
  Post_init base deploy fname lays ctx h = Ret (p, h2) →
  ∃ h1 dctx d2 single plural,
    Template_init base deploy fname lays ctx h = Ret (tpl p, h1)
    ∧ h1 !! context (tpl p) = Some dctx
    ∧ default (VStr EmptyString) (dctx !! KStr "category") = VStr single
    ∧ default (VStr EmptyString) (dctx !! KStr "categories") = VStr plural
    ∧ h2 !! context (tpl p) = Some d2
    ∧ d2 !! KStr "categories"
      = Some (VList (VStr <$> (normalize_categories single
                               ++ normalize_categories plural))).
Proof.
  intros (dctx & date & cats & Hfresh & -> & Hinit & Hcats & _)%Post_init_store.
  unfold joined_categories, join_values in Hcats.
  destruct (default (VStr "") (dctx !! KStr "category"))
    as [| | |single| | | |] eqn:E1; try done.
  destruct (default (VStr "") (dctx !! KStr "categories"))
    as [| | |plural| | | |] eqn:E2; try done.
  simpl in Hcats. injection Hcats as <-.
  eexists _, dctx, _, single, plural. split; [exact Hinit|].
  split; [apply lookup_insert_eq|]. split; [exact E1|]. split; [exact E2|].
  split; [apply lookup_insert_eq|].
  unfold post_context. rewrite lookup_insert_eq.
  by rewrite normalize_categories_app.
Qed.

(** ** Site.read_posts *)



(** ** Rendering and the store *)

Lemma setattr_inv (h h' : heap) l name v :
  AttrDict.setattr l name v h = Ret (tt, h') →
  ∃ d, h !! l = Some d ∧ h' = <[l := <[KStr name := v]> d]> h.
Proof.
  unfold AttrDict.setattr, dict_setitem.
  intros (d & h1 & [Hd ->]%deref_inv & Ha)%bind_inv.
  unfold assign in Ha. injection Ha as <-. eauto.
Qed.

Lemma dict_get_inv (h h' : heap) l k dflt v :
  dict_get l k dflt h = Ret (v, h') → h' = h.
Proof.
  unfold dict_get. by intros (d & h1 & [_ ->]%deref_inv & [_ ->]%mret_inv)%bind_inv.
Qed.

Lemma render_store (t : Template) (h h' : heap) out :
  Template_render t h = Ret (out, h') →
  ∃ d', h' = <[fresh (dom h) := d']> h.
Proof.
  unfold Template_render.
  intros (ctx & h0 & (d & Hd & -> & ->)%copy_inv & H)%bind_inv.
  apply bind_inv in H as (body & h1 & [_ ->]%lift_inv & H).
  apply bind_inv in H as (d1 & h2 & [_ ->]%deref_inv & H).
  apply bind_inv in H as (c & h3 & [_ ->]%lift_inv & H).
  apply bind_inv in H as ([] & h4 & (d2 & _ & ->)%setattr_inv & H).
  apply bind_inv in H as (name & h5 & (d3 & _ & _ & ->)%getattr_inv & H).
  apply bind_inv in H as (lay & h6 & [_ ->]%lift_inv & H).
  rewrite insert_insert_eq in H.
  destruct lay as [l|].
  - apply bind_inv in H as (d4 & h7 & [_ ->]%deref_inv & [_ ->]%lift_inv). eauto.
  - apply bind_inv in H as (v & h7 & (d4 & _ & _ & ->)%getattr_inv & [_ ->]%lift_inv).
    eauto.
Qed.

Lemma loop_store fuel (t : Template) ctx lay (h h' : heap) out :
  layout_loop fuel t ctx lay h = Ret (out, h') →
  ∀ l, l ≠ ctx → h' !! l = h !! l.
Proof.
  revert lay h. induction fuel as [|fuel IH]; intros [lay|] h; simpl; try done.
  - by intros (v & h1 & (d & _ & _ & ->)%getattr_inv & [_ ->]%lift_inv)%bind_inv.
  - intros (d & h1 & [_ ->]%deref_inv & H)%bind_inv l Hl.
    apply bind_inv in H as (c & h2 & [_ ->]%lift_inv & H).
    apply bind_inv in H as ([] & h3 & (d2 & _ & ->)%setattr_inv & H).
    apply bind_inv in H as (parent & h4 & ->%dict_get_inv & H).
    apply bind_inv in H as (next & h5 & [_ ->]%lift_inv & H).
    rewrite (IH _ _ H l Hl). by rewrite lookup_insert_ne.
  - by intros (v & h1 & (d & _ & _ & ->)%getattr_inv & [_ ->]%lift_inv)%bind_inv.
Qed.

Lemma fresh_keeps (h : heap) l (d x : dict) :
  h !! l = Some d → (<[fresh (dom h) := x]> h) !! l = Some d.
Proof.
  intros Hl. rewrite lookup_insert_ne; [done|].
  intros <-. by rewrite fresh_unbound in Hl.
Qed.

(** [render()] works on a copy of the context: when it returns, every
    object that was in the store, the context of the document among them,
    has the bindings it had; the one change is the new object that holds
    the copy. *)
Theorem render_keeps_store (t : Template) (h h' : heap) out :
  Template_render t h = Ret (out, h') →
  (∀ l d, h !! l = Some d → h' !! l = Some d)
  ∧ dom h' = {[fresh (dom h)]} ∪ dom h.
Proof.
  intros (d' & ->)%render_store. split.
  - intros l d Hl. by apply fresh_keeps.
  - apply dom_insert_L.
Qed.

(** [layout()] writes the text of every step to [content] of its own copy
    of the context: when it returns, every object that was in the store
    (the context of the document and the contexts of the layouts among
    them) has the bindings it had. *)
Theorem layout_keeps_store fuel (t : Template) (h h' : heap) out :
  Template_layout fuel t h = Ret (out, h') →
  ∀ l d, h !! l = Some d → h' !! l = Some d.
Proof.
  unfold Template_layout.
  intros (ctx & h0 & (d0 & Hd0 & -> & ->)%copy_inv & H)%bind_inv l d Hl.
  apply bind_inv in H as (c & h1 & (d1 & ->)%render_store & H).
  apply bind_inv in H as ([] & h2 & (d2 & _ & ->)%setattr_inv & H).
  apply bind_inv in H as (name & h3 & (d3 & _ & _ & ->)%getattr_inv & H).
  apply bind_inv in H as (lay & h4 & [_ ->]%lift_inv & H).
  apply bind_inv in H as (first & h5 & Hfirst & H).
  assert (h5 = <[fresh (dom h) := <[KStr "content" := VStr c]> d2]>
                 (<[fresh (dom (<[fresh (dom h) := d0]> h)) := d1]>
                    (<[fresh (dom h) := d0]> h))) as ->.
  { destruct lay as [l0|].
    - apply bind_inv in Hfirst as (parent & h6 & ->%dict_get_inv & [_ ->]%lift_inv).
      done.
    - by apply mret_inv in Hfirst as [_ ->]. }
  assert (l ≠ fresh (dom h)) as Hne
    by (intros ->; by rewrite fresh_unbound in Hl).
  rewrite (loop_store _ _ _ _ _ _ _ H l Hne).
  rewrite lookup_insert_ne by done. by apply fresh_keeps, fresh_keeps.
Qed.

(** ** The result of Template.layout *)

Lemma chain_is_agree (ls : gmap string Layout) (h h' : heap) lay chain :
  chain_is ls h lay chain →
  (∀ l, l ∈ chain → h' !! l_context l = h !! l_context l) →
  chain_is ls h' lay chain.
Proof.
  intros Hchain.
  induction Hchain as [|l next rest Hdl Hnext _ IH]; intros Hsame; [constructor|].
  assert (h' !! l_context l = h !! l_context l) as Hl
    by (apply Hsame, list_elem_of_here).
  apply (chain_is_cons ls h' l next rest).
  - by rewrite Hl.
  - unfold next_layout in *. by rewrite Hl.
  - apply IH. intros l' Hl'. by apply Hsame, list_elem_of_further.
Qed.

Lemma chain_is_bound (ls : gmap string Layout) (h : heap) lay chain :
  chain_is ls h lay chain → ∀ l, l ∈ chain → is_Some (h !! l_context l).
Proof.
  induction 1 as [|l next rest Hdl Hnext _ IH]; intros l' Hl'.
  - by apply elem_of_nil in Hl'.
  - apply elem_of_cons in Hl' as [->|Hl']; [done|by apply IH].
Qed.

Lemma loop_chain (t : Template) ctx (d : dict) chain :
  ∀ lay (h : heap) c out,
    chain_is (layouts t) h lay chain →
    (∀ l, l ∈ chain → l_context l ≠ ctx) →
    h !! ctx = Some (<[KStr "content" := VStr c]> d) →
    wrap_all d c chain = Ret out →
    ∀ fuel, (length chain ≤ fuel)%nat →
      layout_loop fuel t ctx lay h
      = Ret (out, <[ctx := <[KStr "content" := VStr out]> d]> h).
Proof.
  induction chain as [|l rest IH]; intros lay h c out Hchain Hne Hctx Hwrap fuel Hfuel.
  - inversion Hchain; subst.
    simpl in Hwrap. injection Hwrap as <-.
    assert (layout_loop fuel t ctx None h
            = (v ← AttrDict.getattr ctx "content"; lift (as_str v)) h) as ->
      by by destruct fuel.
    rewrite (bind_Ret _ _ _ _ _
               (getattr_Ret _ _ _ _ _ Hctx (lookup_insert_eq _ _ _))).
    simpl. by rewrite insert_id.
  - inversion Hchain as [|l0 next rest0 [dl Hdl] Hnext Hrest]; subst.
    destruct fuel as [|fuel]; [simpl in Hfuel; lia|].
    simpl in Hwrap.
    destruct (jinja_render (l_content l) (<[KStr "content" := VStr c]> d))
      as [c'| |] eqn:Hc; try done.
    assert (l_context l ≠ ctx) as Hl by (apply Hne, list_elem_of_here).
    rewrite (loop_step fuel t ctx h l _ dl c' Hctx Hdl Hl Hc).
    unfold next_layout in Hnext. rewrite Hdl in Hnext. rewrite Hnext.
    rewrite insert_insert_eq.
    rewrite (IH next _ c' out); first by rewrite insert_insert_eq.
    + apply (chain_is_agree _ h); [done|].
      intros l' Hl'. rewrite lookup_insert_ne; [done|].
      intros E. by apply (Hne l' (list_elem_of_further _ _ _ Hl')).
    + intros l' Hl'. by apply Hne, list_elem_of_further.
    + by rewrite lookup_insert_eq.
    + done.
    + simpl in Hfuel. lia.
Qed.

(** What [layout()] produces: when the [layout] of the document names
    [lay] and the declared parents from there on form the finite chain
    [chain], the result is the rendered body wrapped by each layout of the
    chain exactly once, innermost first, each rendered against the
    document's context with [content] bound to the text so far. *)
Theorem layout_wraps_chain (t : Template) (h : heap) (d : dict)
    body c0 name lay chain out :
  h !! context t = Some d →
  Template_transform t = Ret body →
  jinja_render body d = Ret c0 →
  d !! KStr "layout" = Some name →
  layouts_get (layouts t) name = Ret lay →
  chain_is (layouts t) h lay chain →
  wrap_all d c0 chain = Ret out →
  ∃ h', ∀ fuel, (length chain ≤ S fuel)%nat →
    Template_layout fuel t h = Ret (out, h').
Proof.
  intros Hd Hbody Hc0 Hname Hlay Hchain Hwrap.
  set (ctx := fresh (dom h)).
  set (h1 := <[ctx := d]> h).
  assert (h1 !! context t = Some d) as Hd1.
  { unfold h1. rewrite lookup_insert_ne; [done|].
    intros E. unfold ctx in E. rewrite <- E in Hd. by rewrite fresh_unbound in Hd. }
  assert (∀ l, is_Some (h !! l) → l ≠ ctx) as Hfresh.
  { intros l [x Hx] ->. unfold ctx in Hx. by rewrite fresh_unbound in Hx. }
  assert (∀ l, is_Some (h !! l) → l ≠ fresh (dom h1)) as Hfresh1.
  { intros l [x Hx] ->.
    assert (h1 !! fresh (dom h1) = Some x) as Hx1.
    { unfold h1. rewrite lookup_insert_ne; [done|]. by apply not_eq_sym, Hfresh. }
    by rewrite fresh_unbound in Hx1. }
  assert (ctx ≠ fresh (dom h1)) as Hctx1.
  { intros E. assert (h1 !! fresh (dom h1) = Some d) as Hx
      by (rewrite <- E; apply lookup_insert_eq).
    by rewrite fresh_unbound in Hx. }
  pose proof (render_eq t h1 d body c0 Hd1 Hbody Hc0) as Hrender.
  cbv zeta in Hrender. rewrite Hname, Hlay in Hrender.
  destruct Hchain as [|l next rest [dl Hdl] Hnext Hrest].
  - simpl in Hwrap. injection Hwrap as <-.
    eexists. intros fuel _.
    rewrite (layout_eq fuel t h _ d c0 Hd Hrender).
    + cbv zeta. by rewrite Hname, Hlay.
    + rewrite lookup_insert_ne by done. apply lookup_insert_eq.
  - simpl in Hwrap.
    destruct (jinja_render (l_content l) (<[KStr "content" := VStr c0]> d))
      as [c1| |] eqn:Hc1; try done.
    eexists. intros fuel Hfuel.
    rewrite (layout_eq fuel t h _ d c1 Hd Hrender).
    + cbv zeta. rewrite Hname, Hlay.
      assert (l_context l ≠ ctx) as Hl by (apply Hfresh; by eexists).
      assert (l_context l ≠ fresh (dom h1)) as Hl1 by (apply Hfresh1; by eexists).
      assert ((<[ctx := <[KStr "content" := VStr c1]> d]>
                 (<[fresh (dom h1) := <[KStr "content" := VStr c0]> d]> h1))
                !! l_context l = Some dl) as Hdl3.
      { rewrite !lookup_insert_ne by (apply not_eq_sym; assumption).
        unfold h1. by rewrite lookup_insert_ne by (apply not_eq_sym; assumption). }
      fold ctx. rewrite Hdl3.
      unfold next_layout in Hnext. rewrite Hdl in Hnext. rewrite Hnext.
      simpl in Hwrap.
      apply (loop_chain t ctx d rest next _ c1 out).
      * apply (chain_is_agree _ h); [done|].
        intros l' Hl'.
        pose proof (chain_is_bound _ _ _ _ Hrest l' Hl') as Hb.
        unfold h1.
        by rewrite !lookup_insert_ne
          by (apply not_eq_sym; first [by apply Hfresh | by apply Hfresh1]).
      * intros l' Hl'. apply Hfresh. by eapply chain_is_bound.
      * apply lookup_insert_eq.
      * done.
      * simpl in Hfuel. lia.
    + rewrite lookup_insert_ne by done. apply lookup_insert_eq.
Qed.

(** ** Template.transform *)

Lemma after_last_app_lacks c (a b : string) :
  Str.lacks c b = true → Str.after_last c (a +:+ b) = Str.after_last c a.
Proof.
  intros Hb. induction a as [|x a IH].
  - rewrite append_nil. induction b as [|y b IHb]; [done|].
    rewrite lacks_cons in Hb. apply andb_prop in Hb as [Hy Hb].
    apply negb_true_iff in Hy. simpl. by rewrite (IHb Hb), Hy.
  - rewrite append_cons. simpl. by rewrite IH.
Qed.

Lemma after_last_app_sep c (a b : string) :
  Str.lacks c b = true →
  Str.after_last c (a +:+ String c b) = S (String.length a).
Proof.
  intros Hb. induction a as [|x a IH].
  - rewrite append_nil. simpl.
    rewrite <- (append_nil b), (after_last_app_lacks c EmptyString b Hb).
    simpl. by rewrite eqc_refl.
  - rewrite append_cons. simpl. by rewrite IH.
Qed.

Lemma after_last_le c s : (Str.after_last c s ≤ String.length s)%nat.
Proof.
  induction s as [|a s IH]; [done|]. simpl.
  destruct (Str.after_last c s); [destruct (Str.eqc a c)|]; lia.
Qed.

Lemma drop_app_le n (a b : string) :
  (n ≤ String.length a)%nat → Str.drop n (a +:+ b) = Str.drop n a +:+ b.
Proof.
  revert a. induction n as [|n IH]; intros a Hn; [by destruct a|].
  destruct a as [|x a]; [simpl in Hn; lia|].
  rewrite append_cons. simpl. apply IH. simpl in Hn. lia.
Qed.

Lemma drop_length n s : String.length (Str.drop n s) = (String.length s - n)%nat.
Proof.
  revert s. induction n as [|n IH]; intros s; [destruct s; simpl; lia|].
  destruct s as [|x s]; [done|]. simpl. apply IH.
Qed.

Lemma take_app (a b : string) : Str.take (String.length a) (a +:+ b) = a.
Proof.
  induction a as [|x a IH]; [by destruct b|].
  rewrite append_cons. simpl. by rewrite IH.
Qed.

Lemma drop_app (a b : string) : Str.drop (String.length a) (a +:+ b) = b.
Proof.
  induction a as [|x a IH]; [by destruct b|].
  rewrite append_cons. simpl. by rewrite IH.
Qed.

(** [os.path.splitext] cuts at the last dot of the last component. *)
Lemma splitext_app (p ext : string) :
  Str.lacks "." ext = true → Str.lacks "/" ext = true →
  Str.existsb (λ c, negb (Str.eqc c ".")) (OsPath.basename p) = true →
  OsPath.splitext (p +:+ "." +:+ ext) = (p, "." +:+ ext).
Proof.
  intros Hdot Hsep Hstem. unfold OsPath.splitext.
  change (p +:+ "." +:+ ext) with (p +:+ String "." ext).
  rewrite (after_last_app_sep "." p ext Hdot).
  rewrite (after_last_app_lacks "/" p (String "." ext))
    by (by rewrite lacks_cons, Hsep).
  pose proof (after_last_le "/" p) as Hle.
  rewrite bool_decide_true by lia.
  rewrite (drop_app_le _ p _ Hle).
  replace (S (String.length p) - 1 - Str.after_last "/" p)%nat
    with (String.length (Str.drop (Str.after_last "/" p) p))
    by (rewrite drop_length; lia).
  rewrite take_app. unfold OsPath.basename in Hstem. rewrite Hstem.
  replace (S (String.length p) - 1)%nat with (String.length p) by lia.
  by rewrite take_app, drop_app.
Qed.

(** The transformer of a document is the one registered for the text
    after the last dot of its file name ([gz] for [notes.tar.gz]); the
    dots of the directories and a dot that starts the name do not count.
    A document whose extension has no transformer is not changed. *)
Theorem transform_by_extension (t : Template) (p ext : string) :
  filename t = p +:+ "." +:+ ext →
  Str.lacks "." ext = true → Str.lacks "/" ext = true →
  Str.existsb (λ c, negb (Str.eqc c ".")) (OsPath.basename p) = true →
  Template_transform t
  = match transformers !! ext with
    | Some f => f (content t)
    | None => Ret (content t)
    end.
Proof.
  intros Hname Hdot Hsep Hstem. unfold Template_transform.
  rewrite Hname, (splitext_app p ext Hdot Hsep Hstem). done.
Qed.

(** ** Site.read_layouts *)

Lemma read_layout_files_cons base deploy layout_dir f listing ctx :
  read_layout_files base deploy layout_dir (f :: listing) ctx
  = if Str.startswith "__" f then
      read_layout_files base deploy layout_dir listing ctx
    else
      l ← Layout_init base deploy (OsPath.join layout_dir [f]) ctx;
      ls ← read_layout_files base deploy layout_dir listing ctx;
      mret (l :: ls).
Proof. reflexivity. Qed.

Lemma Layout_init_inv base deploy fname ctx (h h1 : heap) l :
  Layout_init base deploy fname ctx h = Ret (l, h1) →
  l_filename l = fname ∧ l_name l = stem_of fname
  ∧ ∃ t, Template_init base deploy fname ∅ ctx h = Ret (t, h1)
         ∧ l_context l = context t
         ∧ Template_transform t = Ret (l_content l).
Proof.
  unfold Layout_init.
  intros (t & h0 & Hinit & H)%bind_inv.
  apply bind_inv in H as (c & h2 & [Hc ->]%lift_inv & [-> ->]%mret_inv).
  simpl. eauto 10.
Qed.

Lemma read_layout_files_inv base deploy layout_dir listing ctx (h h' : heap) ls :
  read_layout_files base deploy layout_dir listing ctx h = Ret (ls, h') →
  l_filename <$> ls
    = (λ f, OsPath.join layout_dir [f])
        <$> filter (λ f, Str.startswith "__" f = false) listing
  ∧ Forall (λ l, l_name l = stem_of (l_filename l)) ls
  ∧ (∀ l d, h !! l = Some d → h' !! l = Some d).
Proof.
  revert h ls. induction listing as [|f listing IH]; intros h ls.
  - intros [-> ->]%mret_inv. done.
  - rewrite read_layout_files_cons, filter_cons.
    destruct (Str.startswith "__" f) eqn:Ef.
    + rewrite decide_False by done. apply IH.
    + rewrite decide_True by done.
      intros (l & h1 & Hl & H)%bind_inv.
      apply bind_inv in H as (ls' & h2 & Hls & [-> ->]%mret_inv).
      destruct (IH _ _ Hls) as (Hnames & Hstems & Hframe).
      destruct (Layout_init_inv _ _ _ _ _ _ _ Hl) as (Hf & Hn & t & Hinit & _ & _).
      apply Template_init_inv in Hinit as (c & d0 & d1 & _ & _ & ->).
      rewrite !fmap_cons, Hnames, Hf. split; [done|]. split.
      * constructor; [by rewrite Hn, Hf|done].
      * intros l' d Hl'. by apply Hframe, fresh_keeps.
Qed.

Lemma layouts_by_name_lookup (ls : list Layout) (m : gmap string Layout) name :
  foldl (λ m l, <[l_name l := l]> m) m ls !! name
  = match last (filter (λ l, l_name l = name) ls) with
    | Some l => Some l
    | None => m !! name
    end.
Proof.
  revert m. induction ls as [|l ls IH]; intros m; [done|].
  simpl. rewrite IH, filter_cons.
  destruct (decide (l_name l = name)) as [<-|Hne].
  - rewrite last_cons. rewrite lookup_insert_eq.
    by destruct (last (filter _ ls)).
  - by rewrite lookup_insert_ne.
Qed.

Lemma filter_by_stem (ls : list Layout) name :
  Forall (λ l, l_name l = stem_of (l_filename l)) ls →
  l_filename <$> filter (λ l, l_name l = name) ls
  = filter (λ p, stem_of p = name) (l_filename <$> ls).
Proof.
  induction 1 as [|l ls Hl _ IH]; [done|].
  rewrite fmap_cons, !filter_cons, <- Hl.
  destruct (decide (l_name l = name)); [|done].
  by rewrite fmap_cons, IH.
Qed.

(** The layouts of a site, by name: the layout under a name is the one
    read from the listed file with that stem, skipping the names that start
    with two underscores; when several listed files have the stem
    ([default.html] and [default.md]), it is the one listed last; a name
    that is the stem of no listed file is no key.  Reading the layouts
    changes no object that was in the store. *)
Theorem read_layouts_by_stem base deploy layout_dir listing ctx
    (h h' : heap) (m : gmap string Layout) :
  Site_read_layouts base deploy layout_dir listing ctx h = Ret (m, h') →
  (∀ name,
     l_filename <$> (m !! name)
     = last (filter (λ p, stem_of p = name)
               ((λ f, OsPath.join layout_dir [f])
                  <$> filter (λ f, Str.startswith "__" f = false) listing)))
  ∧ (∀ name l, m !! name = Some l → l_name l = name)
  ∧ (∀ l d, h !! l = Some d → h' !! l = Some d).
Proof using fs yaml_load transformers.
  clear jinja_render.
  unfold Site_read_layouts.
  intros (ls & h1 & (Hfiles & Hstems & Hframe)%read_layout_files_inv
          & [-> ->]%mret_inv)%bind_inv.
  assert (∀ name, layouts_by_name ls !! name
                  = last (filter (λ l, l_name l = name) ls)) as Hlook.
  { intros name. unfold layouts_by_name. rewrite layouts_by_name_lookup.
    by destruct (last _). }
  split; [|split; [|done]].
  - intros name.
    by rewrite Hlook, <- Hfiles, <- (filter_by_stem ls name Hstems), fmap_last.
  - intros name l. rewrite Hlook. intros Hlast.
    apply last_Some_elem_of, list_elem_of_filter in Hlast. tauto.
Qed.

(** ** Post.__cmp__ *)

Lemma Post_date_VDate (p : Post) v :
  Post_date p = Ret v → ∃ y m d, v = VDate y m d.
Proof.
  unfold Post_date.
  destruct (Str.py_int (year p)) as [vy| |]; try done.
  destruct (Str.py_int (month p)) as [vm| |]; try done.
  destruct (Str.py_int (day p)) as [vd| |]; try done.
  simpl. unfold Datetime.datetime.
  destruct (negb _); [done|]. destruct (Datetime.valid_date _ _ _); [|done].
  intros [= <-]. by eexists _, _, _.
Qed.

Lemma cmp_dates_spec y m d y' m' d' :
  ∃ z, cmp_dates (VDate y m d) (VDate y' m' d') = Ret z
       ∧ ((z = -1 ∧ (y < y' ∨ y = y' ∧ (m < m' ∨ m = m' ∧ d < d')))
          ∨ (z = 0 ∧ y = y' ∧ m = m' ∧ d = d')
          ∨ (z = 1 ∧ (y' < y ∨ y = y' ∧ (m' < m ∨ m = m' ∧ d' < d)))).
Proof.
  eexists. split; [done|]. unfold cmp_Z.
  destruct (Z.eqb_spec y y'); simpl.
  - destruct (Z.eqb_spec m m'); simpl.
    + destruct (Z.ltb_spec d d'); [lia|]. destruct (Z.eqb_spec d d'); lia.
    + destruct (Z.ltb_spec m m'); [lia|]. destruct (Z.eqb_spec m m'); lia.
  - destruct (Z.ltb_spec y y'); [lia|]. destruct (Z.eqb_spec y y'); lia.
Qed.

(** Posts are ordered by their dates alone.  For posts whose file names
    give dates (as those of all constructed posts do), the comparison
    returns -1, 0 or 1; it is 0 exactly when the two dates are the same,
    whatever the slugs and the spelling of the numbers; comparing the other
    way round gives the opposite sign; and the order is transitive. *)
Theorem Post_cmp_by_date (a b c : Post) (va vb vc : value) :
  Post_date a = Ret va → Post_date b = Ret vb → Post_date c = Ret vc →
  ∃ ab bc ac,
    Post_cmp a b = Ret ab ∧ Post_cmp b c = Ret bc ∧ Post_cmp a c = Ret ac
    ∧ Post_cmp b a = Ret (- ab)
    ∧ (ab = -1 ∨ ab = 0 ∨ ab = 1)
    ∧ (ab = 0 ↔ va = vb)
    ∧ (ab ≤ 0 → bc ≤ 0 → ac ≤ 0).
Proof.
  intros Ha Hb Hc. unfold Post_cmp. rewrite Ha, Hb, Hc.
  apply Post_date_VDate in Ha as (y1 & m1 & d1 & ->).
  apply Post_date_VDate in Hb as (y2 & m2 & d2 & ->).
  apply Post_date_VDate in Hc as (y3 & m3 & d3 & ->).
  cbn [mbind outcome_bind obind].
  destruct (cmp_dates_spec y1 m1 d1 y2 m2 d2) as (ab & -> & Hab).
  destruct (cmp_dates_spec y2 m2 d2 y3 m3 d3) as (bc & -> & Hbc).
  destruct (cmp_dates_spec y1 m1 d1 y3 m3 d3) as (ac & -> & Hac).
  destruct (cmp_dates_spec y2 m2 d2 y1 m1 d1) as (ba & -> & Hba).
  exists ab, bc, ac.
  split; [done|]. split; [done|]. split; [done|].
  split; [f_equal; lia|].
  split; [lia|].
  split; [|lia].
  split.
  - intros ->. f_equal; lia.
  - intros [= -> -> ->]. lia.
Qed.

(** ** The categories list *)

Lemma split_lacks sep s : Forall (λ tok, Str.lacks sep tok = true) (Str.split sep s).
Proof.
  induction s as [|c s IH]; [by repeat constructor|]. simpl.
  destruct (Str.eqc c sep) eqn:Ec; [by constructor|].
  destruct (Str.split sep s) as [|w ws]; [by repeat constructor; rewrite lacks_cons, Ec|].
  inversion IH; subst. constructor; [|done]. by rewrite lacks_cons, Ec.
Qed.

Lemma split_one sep s : Str.lacks sep s = true → Str.split sep s = [s].
Proof.
  induction s as [|c s IH]; [done|]. rewrite lacks_cons.
  intros [Hc Hs]%andb_prop. apply negb_true_iff in Hc.
  simpl. by rewrite Hc, (IH Hs).
Qed.

Lemma lacks_lstrip c s : Str.lacks c s = true → Str.lacks c (Str.lstrip s) = true.
Proof.
  induction s as [|a s IH]; [done|]. simpl.
  destruct (Str.isspace a); [|done]. rewrite lacks_cons.
  intros [_ Hs]%andb_prop. by apply IH.
Qed.

Lemma lacks_rstrip c s : Str.lacks c s = true → Str.lacks c (Str.rstrip s) = true.
Proof.
  induction s as [|a s IH]; [done|]. rewrite lacks_cons.
  intros [Ha Hs]%andb_prop. specialize (IH Hs). simpl.
  destruct (Str.rstrip s) as [|b r].
  - destruct (Str.isspace a); [done|]. by rewrite lacks_cons, Ha.
  - by rewrite lacks_cons, Ha, IH.
Qed.

Lemma rstrip_rstrip s : Str.rstrip (Str.rstrip s) = Str.rstrip s.
Proof.
  induction s as [|a s IH]; [done|]. simpl.
  destruct (Str.rstrip s) as [|b r] eqn:E.
  - destruct (Str.isspace a) eqn:Ea; [done|]. simpl. by rewrite Ea.
  - change (Str.rstrip (String a (String b r)))
      with (match Str.rstrip (String b r) with
            | EmptyString =>
                if Str.isspace a then EmptyString else String a EmptyString
            | x => String a x
            end).
    by rewrite IH.
Qed.

Lemma lstrip_head s :
  match Str.lstrip s with
  | EmptyString => True
  | String c _ => Str.isspace c = false
  end.
Proof.
  induction s as [|a s IH]; [done|]. simpl.
  by destruct (Str.isspace a) eqn:Ea; [|rewrite Ea].
Qed.

Lemma rstrip_head c s :
  Str.isspace c = false → ∃ r, Str.rstrip (String c s) = String c r.
Proof.
  intros Hc. simpl. destruct (Str.rstrip s); [rewrite Hc|]; by eexists.
Qed.

Lemma strip_strip s : Str.strip (Str.strip s) = Str.strip s.
Proof.
  unfold Str.strip. pose proof (lstrip_head s) as Hhead.
  destruct (Str.lstrip s) as [|c x]; [done|].
  destruct (rstrip_head c x Hhead) as (r & Hr).
  rewrite Hr. cbn [Str.lstrip]. rewrite Hhead, <- Hr. apply rstrip_rstrip.
Qed.

Lemma strip_empty s : Str.strip s = EmptyString → Str.forallb Str.isspace s = true.
Proof.
  unfold Str.strip. induction s as [|c s IH]; [done|]. simpl.
  destruct (Str.isspace c) eqn:Ec; [exact IH|].
  destruct (rstrip_head c s Ec) as (r & Hr). by rewrite Hr.
Qed.

Lemma normalize_one c :
  Str.lacks "," c = true → Str.nonempty c = true → Str.strip c = c →
  normalize_categories c = [c].
Proof.
  intros Hsep Hne Hstrip. unfold normalize_categories.
  rewrite (split_one _ _ Hsep), filter_cons, decide_True by by rewrite Hne.
  by rewrite fmap_cons, Hstrip.
Qed.

Lemma normalize_join cs :
  Forall (λ c, Str.lacks "," c = true ∧ Str.nonempty c = true
               ∧ Str.strip c = c) cs →
  normalize_categories (Str.join "," cs) = cs.
Proof.
  induction 1 as [|c cs (Hsep & Hne & Hstrip) Hcs IH]; [done|].
  destruct cs as [|c' cs].
  - by apply normalize_one.
  - change (Str.join "," (c :: c' :: cs))
      with (c +:+ "," +:+ Str.join "," (c' :: cs)).
    by rewrite normalize_categories_app, IH, normalize_one.
Qed.

(** When no token of the joined categories text is white space only, the
    categories list holds no empty string, and normalizing the list again
    (joined with commas) gives the same list. *)
Theorem normalize_categories_clean (cats : string) :
  (∀ tok, tok ∈ Str.split "," cats → blank tok = false) →
  (EmptyString ∉ normalize_categories cats)
  ∧ normalize_categories (Str.join "," (normalize_categories cats))
    = normalize_categories cats.
Proof.
  intros Hclean.
  assert (Forall (λ c, Str.lacks "," c = true ∧ Str.nonempty c = true
                       ∧ Str.strip c = c) (normalize_categories cats)) as Hall.
  { unfold normalize_categories. apply Forall_fmap, Forall_forall.
    intros tok [Hne Htok]%list_elem_of_filter. apply Is_true_true in Hne.
    pose proof (Hclean tok Htok) as Hb. unfold blank in Hb. rewrite Hne in Hb.
    simpl in Hb. simpl. split; [|split].
    - apply lacks_rstrip, lacks_lstrip.
      by apply (proj1 (Forall_forall _ _) (split_lacks "," cats)).
    - destruct (Str.strip tok) eqn:E; [|done].
      apply strip_empty in E. congruence.
    - apply strip_strip. }
  split; [|by apply normalize_join].
  intros Hin. apply (proj1 (Forall_forall _ _) Hall) in Hin. by destruct Hin as (_ & ? & _).
Qed.

(** ** The closing marker *)

Lemma star_lazy_first cl k g p s r :
  Re.star_lazy cl k g p s = Some r →
  ∃ w s', s = w +:+ s'
          ∧ k (Re.MState (last_char p w) s' g) = Some r
          ∧ ∀ w0 s0, s = w0 +:+ s0 →
                     (String.length w0 < String.length w)%nat →
                     k (Re.MState (last_char p w0) s0 g) = None.
Proof.
  revert p. induction s as [|c s IH]; intros p; simpl.
  - destruct (k (Re.MState p EmptyString g)) as [r'|] eqn:Hk; [|done].
    intros ?; simplify_eq. exists EmptyString, EmptyString.
    split; [done|]. split; [done|]. intros w0 s0 _ Hlt. simpl in Hlt. lia.
  - destruct (k (Re.MState p (String c s) g)) as [r'|] eqn:Hk.
    + intros ?; simplify_eq. exists EmptyString, (String c s).
      split; [done|]. split; [done|]. intros w0 s0 _ Hlt. simpl in Hlt. lia.
    + destruct (Re.cmatch cl c) eqn:Hc; [|done].
      intros (w & s' & -> & Hk' & Hmin)%IH.
      exists (String c w), s'. split; [done|]. split; [done|].
      intros [|a w0] s0.
      * rewrite append_nil. by intros <- _.
      * rewrite !append_cons. intros [= <- Hs] Hlt. simpl.
        apply Hmin; [done|]. simpl in Hlt. lia.
Qed.

Lemma app_eq_split (a b c d : string) :
  a +:+ b = c +:+ d → (String.length a ≤ String.length c)%nat →
  ∃ e, c = a +:+ e ∧ b = e +:+ d.
Proof.
  revert c. induction a as [|x a IH]; intros c.
  - rewrite append_nil. intros -> _. by exists c.
  - destruct c as [|y c]; [simpl; lia|].
    rewrite !append_cons. intros [= <- H] Hlen.
    destruct (IH c H) as (e & -> & ->); [simpl in Hlen; lia|].
    by exists e.
Qed.

Lemma forallb_app f (a b : string) :
  Str.forallb f (a +:+ b) = Str.forallb f a && Str.forallb f b.
Proof.
  induction a as [|x a IH]; [done|].
  rewrite append_cons. simpl. by rewrite IH, andb_assoc.
Qed.

Lemma block_run_first text mo :
  Re.run block_re content_k (Re.MState None text []) = Some mo →
  ∃ w1 y w2 body,
    marker_block text w1 y w2 body
    ∧ Re.groups mo = [("content", body); ("yaml", y)]
    ∧ ∀ w1' y' w2' body',
        marker_block text w1' y' w2' body' →
        (String.length w1 + String.length y
         ≤ String.length w1' + String.length y')%nat.
Proof.
  unfold block_re, Re.seq. cbn [foldr Re.run Re.at_bol Re.prev Re.rest Re.groups].
  destruct (Re.eat "---" None text) as [[p1 s1]|] eqn:Heat; [|done].
  apply eat_Some in Heat as [-> ->].
  intros (w1 & s2 & -> & Hw1 & H)%star_greedy_Some.
  cbn [Re.run Re.rest Re.prev Re.groups] in H.
  destruct (Re.at_eol _) eqn:Heol1 in H; [|done].
  apply star_lazy_first in H as (y & s3 & -> & H & Hmin).
  unfold Re.capture in H. cbn [Re.rest Re.prev Re.groups] in H.
  rewrite take_app_length in H.
  destruct (Re.at_bol _) eqn:Hbol in H; [|done].
  destruct (Re.eat "---" _ s3) as [[p4 s4]|] eqn:Heat; [|done].
  apply eat_Some in Heat as [-> ->].
  apply star_greedy_Some in H as (w2 & body & -> & Hw2 & H).
  destruct (Re.at_eol _) eqn:Heol2 in H; [|done].
  unfold content_k in H. rewrite run_content in H.
  injection H as <-. cbn [Re.rest Re.prev Re.groups].
  exists w1, y, w2, body. split; [|split; [done|]].
  { apply at_eol_rest in Heol1, Heol2.
    assert (Str.startswith Ex.nl y = true) as Hy.
    { destruct Heol1 as [E|E].
      - by destruct y.
      - destruct y as [|c y]; [done|]. by rewrite append_cons in E. }
    assert (Str.nonempty y = true) as Ny by by destruct y.
    assert (Str.endswithc "010" y = true) as Hy'.
    { unfold Re.at_bol in Hbol. cbn [Re.prev] in Hbol.
      destruct (last_char (last_char (last_char None "---") w1) y) as [c|] eqn:Hlast.
      - apply eqc_eq in Hbol as ->.
        rewrite (last_char_endswith _ _ _ Ny Hlast). apply eqc_refl.
      - by destruct (last_char_None _ _ Ny Hlast). }
    done. }
  intros w1' y' w2' body' (Heq & Hw1' & Hw2' & Hy' & Hy'' & Hbody').
  destruct (le_lt_dec (String.length w1 + String.length y)
              (String.length w1' + String.length y')) as [|Hlt]; [done|].
  exfalso.
  assert (w1 +:+ y +:+ "---" +:+ w2 +:+ body
          = (w1' +:+ y') +:+ "---" +:+ w2' +:+ body') as Heq'.
  { rewrite append_assoc. apply (f_equal (Str.drop 3)) in Heq. exact Heq. }
  destruct (le_lt_dec (String.length w1) (String.length (w1' +:+ y')))
    as [Hle|Hin].
  - destruct (app_eq_split _ _ _ _ Heq' Hle) as (w0 & Hw0 & Hrest).
    assert (String.length w0 < String.length y)%nat as Hshort.
    { apply (f_equal String.length) in Hw0. rewrite !length_append in Hw0. lia. }
    specialize (Hmin w0 _ Hrest Hshort).
    unfold Re.capture in Hmin. cbn [Re.rest Re.prev Re.groups Re.at_bol] in Hmin.
    rewrite <- !last_char_app, <- Hw0, !last_char_app in Hmin.
    rewrite (endswithc_last_char _ _ _ Hy'') in Hmin.
    unfold Re.at_bol in Hmin. cbn [Re.prev] in Hmin.
    rewrite eqc_refl, eat_app in Hmin.
    pose proof (star_greedy_None _ _ _ _ _ Hmin w2' _ eq_refl Hw2') as H3.
    cbn beta in H3. rewrite (at_eol_body _ _ _ Hbody') in H3.
    unfold content_k in H3. by rewrite run_content in H3.
  - destruct (app_eq_split _ _ _ _ (eq_sym Heq') (Nat.lt_le_incl _ _ Hin))
      as (e & He & Hrest).
    assert (0 < String.length e)%nat as Hpos.
    { apply (f_equal String.length) in He. rewrite !length_append in He.
      rewrite length_append in Hin. lia. }
    destruct e as [|c e]; [simpl in Hpos; lia|].
    rewrite append_cons in Hrest. injection Hrest as <- _.
    rewrite He, forallb_app in Hw1. apply andb_prop in Hw1 as [_ Hw1].
    done.
Qed.

(** The metadata block ends at the first line of three dashes that can
    close it: of all the ways to read the text as an opening marker line,
    an inner text, a closing marker line and a body, the pattern takes one
    whose closing marker comes first, so a later line of three dashes stays
    in the body. *)
Theorem RE_YAML_first_marker text mo y body :
  Re.pymatch RE_YAML text = Some mo →
  Re.group "yaml" mo = Some y →
  Re.group "content" mo = Some body →
  ∃ w1 w2,
    marker_block text w1 y w2 body
    ∧ ∀ w1' y' w2' body',
        marker_block text w1' y' w2' body' →
        (String.length w1 + String.length y
         ≤ String.length w1' + String.length y')%nat.
Proof.
  rewrite pymatch_RE_YAML.
  destruct (Re.run block_re content_k _) as [mo'|] eqn:H.
  - intros [= <-].
    destruct (block_run_first _ _ H) as (w1 & y0 & w2 & body0 & Hblock & Hg & Hmin).
    unfold Re.group. rewrite Hg. cbn. intros [= <-] [= <-].
    exists w1, w2. split; [done|]. exact Hmin.
  - unfold content_k. rewrite run_content. intros [= <-].
    unfold Re.group. by cbn.
Qed.


(** ** Site.read_posts, then Site.calc_categories *)




(** ** Posts that are written to the same file *)






End Growl.

(* ===================================================================== *)
(** * The properties on the example site                                  *)
(* ===================================================================== *)

(** Closed facts are checked by evaluation. *)
Ltac by_eval :=
  lazymatch goal with
  | |- _ = ?b => vm_cast_no_check (eq_refl b)
  | |- str_or_absent _ => vm_cast_no_check I
  | |- terminates _ => vm_cast_no_check I
  end.

(** Two different addresses. *)
Ltac by_eval_ne :=
  lazymatch goal with
  | |- ?a = ?b → False =>
      let x := eval vm_compute in a in
      let y := eval vm_compute in b in
      change (x = y → False); discriminate
  end.

(** The example stores are what loading the files gives. *)
Lemma hello_loaded :
  Template_init Ex.fs Ex.yaml "site" "site/_deploy"
    (Ex.post_named "2024-03-05-hello.md") ∅ Ex.site_ctx Ex.site_store
  = Ret (Ex.hello_tpl, Ex.hello_store).
Proof. by_eval. Qed.

Lemma plain_loaded :
  Post_init Ex.fs Ex.yaml "site" "site/_deploy"
    (Ex.post_named "2024-03-08-plain.md") ∅ Ex.site_ctx Ex.site_store
  = Ret (Ex.plain_post, Ex.plain_final).
Proof. by_eval. Qed.

Lemma cycle_loaded :
  Layout_init Ex.fs Ex.yaml Ex.no_transformers "site" "site/_deploy"
    "site/_layout/a.html" Ex.site_ctx Ex.site_store
  = Ret (Ex.layout_a, Ex.store_a)
  ∧ Layout_init Ex.fs Ex.yaml Ex.no_transformers "site" "site/_deploy"
      "site/_layout/b.html" Ex.site_ctx Ex.store_a
    = Ret (Ex.layout_b, Ex.store_ab)
  ∧ Template_init Ex.fs Ex.yaml "site" "site/_deploy"
      (Ex.post_named "2024-04-01-loop.md") Ex.cycle Ex.site_ctx Ex.store_ab
    = Ret (Ex.loop_tpl, Ex.loop_store).
Proof. repeat split; by_eval. Qed.

Lemma default_loaded :
  Layout_init Ex.fs Ex.yaml Ex.no_transformers "site" "site/_deploy"
    "site/_layout/default.html" Ex.site_ctx Ex.site_store
  = Ret (Ex.layout_default, Ex.store_default)
  ∧ Template_init Ex.fs Ex.yaml "site" "site/_deploy"
      (Ex.post_named "2024-03-05-hello.md") Ex.with_default Ex.site_ctx
      Ex.store_default
    = Ret (Ex.hello2_tpl, Ex.hello2_store).
Proof. repeat split; by_eval. Qed.

Lemma categories_loaded :
  Site_read_posts Ex.fs Ex.yaml "site" "site/_deploy" "site/_posts"
    Ex.listing ∅ Ex.site_ctx Ex.site_store
  = Ret ([Ex.first_post; Ex.second_post], Ex.two_store)
  ∧ Post_init Ex.fs Ex.yaml "site" "site/_deploy"
      (Ex.post_named "2024-01-03-twice.md") ∅ Ex.site_ctx Ex.site_store
    = Ret (Ex.twice_post, Ex.twice_store).
Proof. repeat split; by_eval. Qed.

(** ** C5 *)

Lemma copy_isolation_site :
  ∃ c' h1,
    AttrDict.copy Ex.site_ctx Ex.site_store = Ret (c', h1)
    ∧ c' ≠ Ex.site_ctx
    ∧ (∀ ms h2, mutate_all c' ms h1 = Ret (tt, h2) →
         h2 !! Ex.site_ctx = Some Ex.base_ctx).
Proof.
  destruct (copy_isolation Ex.site_store Ex.site_ctx Ex.base_ctx ltac:(by_eval))
    as (c' & h1 & Hcopy & Hne & _ & _ & _ & Hall).
  exists c', h1. split; [exact Hcopy|]. split; [exact Hne|]. exact Hall.
Defined.

(** ** C1 *)

Lemma Post_init_hello :
  ∃ h2 d2,
    Post_init Ex.fs Ex.yaml "site" "site/_deploy"
      (Ex.post_named "2024-03-05-hello.md") ∅ Ex.site_ctx Ex.site_store
    = Ret (Ex.hello_post, h2)
    ∧ Post_date Ex.hello_post = Ret (VDate 2024 3 5)
    ∧ Post_path Ex.hello_post = "2024/03/05"
    ∧ Post_url Ex.hello_post = "2024/03/05/hello"
    ∧ h2 !! 3%positive = Some d2
    ∧ d2 !! KStr "date" = Some (VDate 2024 3 5)
    ∧ d2 !! KStr "path" = Some (VStr "2024/03/05")
    ∧ d2 !! KStr "url" = Some (VStr "2024/03/05/hello").
Proof.
  destruct (Post_init_filename Ex.fs Ex.yaml "site" "site/_deploy"
              (Ex.post_named "2024-03-05-hello.md") ∅ Ex.site_ctx Ex.site_store
              Ex.hello_store Ex.hello_tpl Ex.hello_ctx
              ltac:(by_eval) ltac:(by_eval)) as [Hok _].
  exact (Hok "2024" "03" "05" "hello" 2024 3 5
           ltac:(by_eval) ltac:(by_eval) ltac:(by_eval) ltac:(by_eval)
           ltac:(by_eval) ltac:(by_eval) ltac:(by_eval) ltac:(by_eval)
           ltac:(by_eval) ltac:(by_eval)).
Defined.

Lemma Post_init_month_13 :
  stem_of (Ex.post_named "2024-13-05-hello.md") = "2024-13-05-hello"
  ∧ Str.numeric "2024" && Str.numeric "13" && Str.numeric "05" = true
  ∧ Post_init Ex.fs Ex.yaml "site" "site/_deploy"
      (Ex.post_named "2024-13-05-hello.md") ∅ Ex.site_ctx Ex.site_store
    = Raise ValueError
  ∧ stem_of (Ex.post_named "2024-03-06-five.md") = "2024-03-06-five"
  ∧ Post_init Ex.fs Ex.yaml "site" "site/_deploy"
      (Ex.post_named "2024-03-06-five.md") ∅ Ex.site_ctx Ex.site_store
    = Raise TypeError.
Proof. repeat split; by_eval. Qed.

(** ** C10, C7, C6 *)

Lemma Post_init_categories_plain :
  ∃ h1 dctx d2 cats,
    Template_init Ex.fs Ex.yaml "site" "site/_deploy"
      (Ex.post_named "2024-03-08-plain.md") ∅ Ex.site_ctx Ex.site_store
    = Ret (tpl Ex.plain_post, h1)
    ∧ h1 !! context (tpl Ex.plain_post) = Some dctx
    ∧ Ex.plain_final !! context (tpl Ex.plain_post) = Some d2
    ∧ d2 !! KStr "category" = None
    ∧ d2 !! KStr "categories" = Some (VList (VStr <$> cats))
    ∧ (dctx !! KStr "category" = None → dctx !! KStr "categories" = None →
       cats = []).
Proof.
  exact (Post_init_categories Ex.fs Ex.yaml "site" "site/_deploy"
           (Ex.post_named "2024-03-08-plain.md") ∅ Ex.site_ctx Ex.site_store
           Ex.plain_final Ex.plain_post plain_loaded).
Defined.


(** C6 -- the categories of a post whose [categories] value is ["a, ,b"]:
    the blank token passes the emptiness test, which comes before the
    [strip], so the list holds an empty string, and normalizing the list
    once more drops it. *)
Example normalize_blank_token :
  Post_init Ex.fs Ex.yaml "site" "site/_deploy"
    (Ex.post_named "2024-03-07-list.md") ∅ Ex.site_ctx Ex.site_store
  = Ret (Ex.list_post, Ex.list_final)
  ∧ Ex.list_final !! context (tpl Ex.list_post) = Some Ex.list_ctx
  ∧ Ex.list_ctx !! KStr "categories" = Some (VList [VStr "a"; VStr ""; VStr "b"])
  ∧ normalize_categories (Str.join "," [""; "a, ,b"]) = ["a"; ""; "b"]
  ∧ normalize_categories (Str.join "," ["a"; ""; "b"]) = ["a"; "b"].
Proof. repeat split; by_eval. Qed.

(** ** C3, C9 *)

Lemma render_unknown_layout_hello :
  (∃ h', Template_render Ex.jinja Ex.no_transformers Ex.hello_tpl Ex.hello_store
         = Ret (Ex.nl +:+ "Hi", h'))
  ∧ (∃ h', Template_layout Ex.jinja Ex.no_transformers 0 Ex.hello_tpl Ex.hello_store
           = Ret (Ex.nl +:+ "Hi", h')).
Proof.
  exact (render_unknown_layout Ex.jinja Ex.no_transformers 0
           Ex.hello_tpl Ex.hello_store Ex.hello_ctx (VStr "default")
           (KStr "default") (Ex.nl +:+ "Hi") (Ex.nl +:+ "Hi")
           ltac:(by_eval) ltac:(by_eval) ltac:(by_eval)
           (λ s _, lookup_empty s) ltac:(by_eval) ltac:(by_eval)).
Defined.

Lemma render_list_layout :
  Template_init Ex.fs Ex.yaml "site" "site/_deploy"
    (Ex.post_named "2024-03-09-listed.md") ∅ Ex.site_ctx Ex.site_store
  = Ret (Ex.listed_tpl, Ex.listed_store)
  ∧ Ex.listed_store !! context Ex.listed_tpl = Some Ex.listed_ctx
  ∧ Ex.listed_ctx !! KStr "layout" = Some (VList [VStr "default"])
  ∧ Template_transform Ex.no_transformers Ex.listed_tpl = Ret (Ex.nl +:+ "Hi")
  ∧ Ex.jinja (Ex.nl +:+ "Hi") Ex.listed_ctx = Ret (Ex.nl +:+ "Hi")
  ∧ Template_render Ex.jinja Ex.no_transformers Ex.listed_tpl Ex.listed_store
    = Raise TypeError
  ∧ Template_layout Ex.jinja Ex.no_transformers 0 Ex.listed_tpl Ex.listed_store
    = Raise TypeError.
Proof. repeat split; by_eval. Qed.

Lemma render_without_layout_plain :
  (∀ out h', Template_render Ex.jinja Ex.no_transformers Ex.plain_tpl Ex.plain_store
             ≠ Ret (out, h'))
  ∧ (∀ fuel out h',
       Template_layout Ex.jinja Ex.no_transformers fuel Ex.plain_tpl Ex.plain_store
       ≠ Ret (out, h'))
  ∧ (∀ body c,
       Template_transform Ex.no_transformers Ex.plain_tpl = Ret body →
       Ex.jinja body Ex.base_ctx = Ret c →
       Template_render Ex.jinja Ex.no_transformers Ex.plain_tpl Ex.plain_store
       = Raise (KeyError "layout")
       ∧ ∀ fuel,
           Template_layout Ex.jinja Ex.no_transformers fuel Ex.plain_tpl
             Ex.plain_store
           = Raise (KeyError "layout")).
Proof.
  exact (render_without_layout Ex.jinja Ex.no_transformers
           Ex.plain_tpl Ex.plain_store Ex.base_ctx ltac:(by_eval) ltac:(by_eval)).
Defined.

(** ** C4 *)

Lemma engine_terminates tbl src dd : terminates (Ex.engine tbl src dd).
Proof. unfold Ex.engine. by destruct (Ex.assoc tbl src). Qed.

Lemma layout_terminates_hello :
  ∃ n, ∀ fuel, (n ≤ fuel)%nat →
    terminates (Template_layout Ex.jinja Ex.no_transformers fuel
                  Ex.hello2_tpl Ex.hello2_store).
Proof.
  apply (layout_terminates Ex.jinja Ex.no_transformers
           Ex.hello2_tpl Ex.hello2_store Ex.hello_ctx).
  - by_eval.
  - by_eval.
  - apply engine_terminates.
  - intros name l Hname Hl.
    assert (Some name = Some (VStr "default")) as [= ->]
      by (rewrite <- Hname; by_eval).
    assert (Ret (Some l) = Ret (Some Ex.layout_default)) as [= ->]
      by (rewrite <- Hl; by_eval).
    apply (chain_step _ _ _ None); [exists Ex.base_ctx; by_eval|by_eval|].
    apply chain_none.
Defined.

(** The post [2024-04-01-loop.md]: its layout [a] declares the parent [b],
    which declares the parent [a]; every body renders, and [layout()] runs
    out of every budget. *)
Lemma layout_cycle_diverges :
  Ex.loop_store !! context Ex.loop_tpl = Some Ex.loop_ctx
  ∧ Ex.loop_ctx !! KStr "layout" = Some (VStr "a")
  ∧ next_layout Ex.cycle Ex.loop_store Ex.layout_a = Ret (Some Ex.layout_b)
  ∧ next_layout Ex.cycle Ex.loop_store Ex.layout_b = Ret (Some Ex.layout_a)
  ∧ ∀ fuel,
      Template_layout Ex.jinja Ex.no_transformers fuel Ex.loop_tpl Ex.loop_store
      = Diverge.
Proof.
  split; [by_eval|]. split; [by_eval|]. split; [by_eval|]. split; [by_eval|].
  intros fuel.
  set (ctx := fresh (dom Ex.loop_store)).
  set (h1 := <[ctx := Ex.loop_ctx]> Ex.loop_store).
  set (d1 := <[KStr "content" := VStr (Ex.nl +:+ "A")]> Ex.loop_ctx).
  set (h2 := <[fresh (dom h1) := <[KStr "content" := VStr (Ex.nl +:+ "Hi")]> Ex.loop_ctx]> h1).
  assert (Template_render Ex.jinja Ex.no_transformers Ex.loop_tpl h1
          = Ret (Ex.nl +:+ "A", h2)) as Hrender by by_eval.
  rewrite (layout_eq Ex.jinja Ex.no_transformers fuel Ex.loop_tpl Ex.loop_store
             h2 Ex.loop_ctx (Ex.nl +:+ "A") ltac:(by_eval) Hrender ltac:(by_eval)).
  cbv zeta. fold ctx. fold d1.
  assert (Ex.loop_ctx !! KStr "layout" = Some (VStr "a")) as -> by by_eval.
  assert (layouts_get (layouts Ex.loop_tpl) (VStr "a") = Ret (Some Ex.layout_a))
    as -> by by_eval.
  assert ((<[ctx := d1]> h2) !! l_context Ex.layout_a = Some Ex.ctx_a)
    as -> by by_eval.
  assert (layouts_get (layouts Ex.loop_tpl)
            (default VNone (Ex.ctx_a !! KStr "layout"))
          = Ret (Some Ex.layout_b)) as -> by by_eval.
  apply (cycle_diverges Ex.jinja
           (λ l, l = Ex.layout_a ∨ l = Ex.layout_b) Ex.loop_tpl ctx) with (dc := d1).
  - intros l [-> | ->] dd; eexists; reflexivity.
  - by right.
  - apply lookup_insert_eq.
  - intros l [-> | ->].
    + split; [intros E; revert E; by_eval_ne|].
      exists Ex.ctx_a, Ex.layout_b. split; [by_eval|]. split; [by_eval|]. by right.
    + split; [intros E; revert E; by_eval_ne|].
      exists Ex.ctx_b, Ex.layout_a. split; [by_eval|]. split; [by_eval|]. by left.
Qed.

(** ** C8 *)



(** ** C2 *)



(** ** Construction and the store *)

Lemma Template_init_own_context_hello :
  Ex.site_store !! context Ex.hello_tpl = None
  ∧ is_Some (Ex.hello_store !! context Ex.hello_tpl)
  ∧ (∀ l d, Ex.site_store !! l = Some d → Ex.hello_store !! l = Some d)
  ∧ dom Ex.hello_store = {[context Ex.hello_tpl]} ∪ dom Ex.site_store
  ∧ filename Ex.hello_tpl = Ex.post_named "2024-03-05-hello.md"
  ∧ layouts Ex.hello_tpl = ∅
  ∧ BASE_DIR Ex.hello_tpl = "site" ∧ DEPLOY_DIR Ex.hello_tpl = "site/_deploy".
Proof.
  exact (Template_init_own_context Ex.fs Ex.yaml "site" "site/_deploy"
           (Ex.post_named "2024-03-05-hello.md") ∅ Ex.site_ctx Ex.site_store
           Ex.hello_store Ex.hello_tpl hello_loaded).
Defined.

Lemma Post_init_keeps_metadata_plain :
  Ex.site_store !! context (tpl Ex.plain_post) = None
  ∧ (∀ l d, Ex.site_store !! l = Some d → Ex.plain_final !! l = Some d)
  ∧ ∃ h1 dctx d2,
      Template_init Ex.fs Ex.yaml "site" "site/_deploy"
        (Ex.post_named "2024-03-08-plain.md") ∅ Ex.site_ctx Ex.site_store
      = Ret (tpl Ex.plain_post, h1)
      ∧ h1 !! context (tpl Ex.plain_post) = Some dctx
      ∧ Ex.plain_final !! context (tpl Ex.plain_post) = Some d2
      ∧ ∀ k, k ∉ [KStr "date"; KStr "url"; KStr "path";
                  KStr "category"; KStr "categories"] →
             d2 !! k = dctx !! k.
Proof.
  exact (Post_init_keeps_metadata Ex.fs Ex.yaml "site" "site/_deploy"
           (Ex.post_named "2024-03-08-plain.md") ∅ Ex.site_ctx Ex.site_store
           Ex.plain_final Ex.plain_post plain_loaded).
Defined.

Lemma Post_init_category_order_twice :
  ∃ h1 dctx d2 single plural,
    Template_init Ex.fs Ex.yaml "site" "site/_deploy"
      (Ex.post_named "2024-01-03-twice.md") ∅ Ex.site_ctx Ex.site_store
    = Ret (tpl Ex.twice_post, h1)
    ∧ h1 !! context (tpl Ex.twice_post) = Some dctx
    ∧ default (VStr EmptyString) (dctx !! KStr "category") = VStr single
    ∧ default (VStr EmptyString) (dctx !! KStr "categories") = VStr plural
    ∧ Ex.twice_store !! context (tpl Ex.twice_post) = Some d2
    ∧ d2 !! KStr "categories"
      = Some (VList (VStr <$> (normalize_categories single
                               ++ normalize_categories plural))).
Proof.
  exact (Post_init_category_order Ex.fs Ex.yaml "site" "site/_deploy"
           (Ex.post_named "2024-01-03-twice.md") ∅ Ex.site_ctx Ex.site_store
           Ex.twice_store Ex.twice_post (proj2 categories_loaded)).
Defined.


(** ** Rendering *)

Lemma hello_rendered :
  Template_render Ex.jinja Ex.no_transformers Ex.hello_tpl Ex.hello_store
  = Ret (Ex.nl +:+ "Hi",
         <[fresh (dom Ex.hello_store)
             := <[KStr "content" := VStr (Ex.nl +:+ "Hi")]> Ex.hello_ctx]>
           Ex.hello_store).
Proof. by_eval. Qed.

Lemma hello2_laid_out :
  Template_layout Ex.jinja Ex.no_transformers 0 Ex.hello2_tpl Ex.hello2_store
  = Ret ("<" +:+ Ex.nl +:+ "Hi>",
         <[5%positive
             := <[KStr "content" := VStr ("<" +:+ Ex.nl +:+ "Hi>")]> Ex.hello_ctx]>
           (<[6%positive
                := <[KStr "content" := VStr (Ex.nl +:+ "Hi")]> Ex.hello_ctx]>
              Ex.hello2_store)).
Proof. by_eval. Qed.

Lemma render_keeps_store_hello :
  ∃ h',
    Template_render Ex.jinja Ex.no_transformers Ex.hello_tpl Ex.hello_store
    = Ret (Ex.nl +:+ "Hi", h')
    ∧ (∀ l d, Ex.hello_store !! l = Some d → h' !! l = Some d)
    ∧ dom h' = {[fresh (dom Ex.hello_store)]} ∪ dom Ex.hello_store.
Proof.
  eexists. split; [exact hello_rendered|].
  exact (render_keeps_store Ex.jinja Ex.no_transformers Ex.hello_tpl
           Ex.hello_store _ _ hello_rendered).
Defined.

Lemma layout_keeps_store_hello :
  ∃ h',
    Template_layout Ex.jinja Ex.no_transformers 0 Ex.hello2_tpl Ex.hello2_store
    = Ret ("<" +:+ Ex.nl +:+ "Hi>", h')
    ∧ ∀ l d, Ex.hello2_store !! l = Some d → h' !! l = Some d.
Proof.
  eexists. split; [exact hello2_laid_out|].
  exact (layout_keeps_store Ex.jinja Ex.no_transformers 0 Ex.hello2_tpl
           Ex.hello2_store _ _ hello2_laid_out).
Defined.

Lemma layout_wraps_chain_hello :
  ∃ h', ∀ fuel, (length [Ex.layout_default] ≤ S fuel)%nat →
    Template_layout Ex.jinja Ex.no_transformers fuel Ex.hello2_tpl
      Ex.hello2_store
    = Ret ("<" +:+ Ex.nl +:+ "Hi>", h').
Proof.
  apply (layout_wraps_chain Ex.jinja Ex.no_transformers Ex.hello2_tpl
           Ex.hello2_store Ex.hello_ctx (Ex.nl +:+ "Hi") (Ex.nl +:+ "Hi")
           (VStr "default") (Some Ex.layout_default) [Ex.layout_default]).
  - by_eval.
  - by_eval.
  - by_eval.
  - by_eval.
  - by_eval.
  - apply (chain_is_cons _ _ _ None []).
    + exists Ex.base_ctx. by_eval.
    + by_eval.
    + apply chain_is_nil.
  - by_eval.
Defined.

Lemma transform_by_extension_hello :
  Template_transform {[ "md" := λ s, Ret ("<p>" +:+ s +:+ "</p>") ]} Ex.hello_tpl
  = match ({[ "md" := λ s, Ret ("<p>" +:+ s +:+ "</p>") ]}
             : gmap string (string → outcome string)) !! "md" with
    | Some f => f (content Ex.hello_tpl)
    | None => Ret (content Ex.hello_tpl)
    end.
Proof.
  exact (transform_by_extension {[ "md" := λ s, Ret ("<p>" +:+ s +:+ "</p>") ]}
           Ex.hello_tpl "site/_posts/2024-03-05-hello" "md"
           ltac:(by_eval) ltac:(by_eval) ltac:(by_eval) ltac:(by_eval)).
Defined.

(** ** The layouts and the posts of the site *)

Lemma layouts_loaded :
  Site_read_layouts Ex.fs Ex.yaml Ex.no_transformers "site" "site/_deploy"
    "site/_layout" ["__draft.html"; "a.html"; "b.html"] Ex.site_ctx
    Ex.site_store
  = Ret (Ex.cycle, Ex.store_ab).
Proof. by_eval. Qed.

Lemma read_layouts_by_stem_cycle :
  (∀ name,
     l_filename <$> (Ex.cycle !! name)
     = last (filter (λ p, stem_of p = name)
               ((λ f, OsPath.join "site/_layout" [f])
                  <$> filter (λ f, Str.startswith "__" f = false)
                        ["__draft.html"; "a.html"; "b.html"])))
  ∧ (∀ name l, Ex.cycle !! name = Some l → l_name l = name)
  ∧ (∀ l d, Ex.site_store !! l = Some d → Ex.store_ab !! l = Some d).
Proof.
  exact (read_layouts_by_stem Ex.fs Ex.yaml Ex.no_transformers
           "site" "site/_deploy" "site/_layout"
           ["__draft.html"; "a.html"; "b.html"] Ex.site_ctx
           Ex.site_store Ex.store_ab Ex.cycle layouts_loaded).
Defined.

Lemma Post_cmp_by_date_three :
  ∃ ab bc ac,
    Post_cmp Ex.first_post Ex.second_post = Ret ab
    ∧ Post_cmp Ex.second_post Ex.twice_post = Ret bc
    ∧ Post_cmp Ex.first_post Ex.twice_post = Ret ac
    ∧ Post_cmp Ex.second_post Ex.first_post = Ret (- ab)
    ∧ (ab = -1 ∨ ab = 0 ∨ ab = 1)
    ∧ (ab = 0 ↔ VDate 2024 1 1 = VDate 2024 1 2)
    ∧ (ab ≤ 0 → bc ≤ 0 → ac ≤ 0).
Proof.
  exact (Post_cmp_by_date Ex.first_post Ex.second_post Ex.twice_post
           (VDate 2024 1 1) (VDate 2024 1 2) (VDate 2024 1 3)
           ltac:(by_eval) ltac:(by_eval) ltac:(by_eval)).
Defined.

Lemma normalize_categories_clean_two :
  (EmptyString ∉ normalize_categories "tech, life")
  ∧ normalize_categories (Str.join "," (normalize_categories "tech, life"))
    = normalize_categories "tech, life".
Proof.
  apply (normalize_categories_clean "tech, life").
  assert (Forall (λ tok, blank tok = false) (Str.split "," "tech, life")) as Hall.
  { assert (Str.split "," "tech, life" = ["tech"; " life"]) as -> by by_eval.
    repeat constructor. }
  exact (proj1 (Forall_forall _ _) Hall).
Defined.

(** ** The closing marker *)

Lemma RE_YAML_first_marker_two :
  ∃ w1 w2,
    marker_block
      (Ex.block "layout: default" ("Hi" +:+ Ex.nl +:+ "---" +:+ Ex.nl +:+ "more"))
      w1 (Ex.nl +:+ "layout: default" +:+ Ex.nl) w2
      (Ex.nl +:+ "Hi" +:+ Ex.nl +:+ "---" +:+ Ex.nl +:+ "more")
    ∧ ∀ w1' y' w2' body',
        marker_block
          (Ex.block "layout: default"
             ("Hi" +:+ Ex.nl +:+ "---" +:+ Ex.nl +:+ "more"))
          w1' y' w2' body' →
        (String.length w1 + String.length (Ex.nl +:+ "layout: default" +:+ Ex.nl)
         ≤ String.length w1' + String.length y')%nat.
Proof.
  exact (RE_YAML_first_marker
           (Ex.block "layout: default"
              ("Hi" +:+ Ex.nl +:+ "---" +:+ Ex.nl +:+ "more"))
           (Re.MState (Some "e"%char) EmptyString
              [("content", Ex.nl +:+ "Hi" +:+ Ex.nl +:+ "---" +:+ Ex.nl +:+ "more");
               ("yaml", Ex.nl +:+ "layout: default" +:+ Ex.nl)])
           (Ex.nl +:+ "layout: default" +:+ Ex.nl)
           (Ex.nl +:+ "Hi" +:+ Ex.nl +:+ "---" +:+ Ex.nl +:+ "more")
           ltac:(by_eval) ltac:(by_eval) ltac:(by_eval)).
Defined.

(** ** The categories and the files of the posts *)



